(** * NeighborList (qutebrowser/utils/usertypes.py)

    A shallow embedding of the [NeighborList] class: a list of items which
    saves its current position.  Items are integers (the class subtracts
    and compares them); every method is a computation over the object's
    attributes that either returns a value or raises a Python exception,
    and in both cases leaves behind the attribute values it had written
    up to that point. *)

From Stdlib Require Import String.
From Stdlib Require Import ZArith List Bool Lia.
From Stdlib Require Import Permutation.
Import ListNotations.
Open Scope Z_scope.

(** ** Exceptions *)

(** The exceptions the class raises itself, and the ones the interpreter
    raises on its behalf. *)
Inductive PyExc : Type :=
| IndexError_no_items       (* raise IndexError("No items found!") *)
| IndexError_no_current     (* raise IndexError("No current item!") *)
| IndexError_bare           (* raise IndexError *)
| IndexError_list_range     (* list subscript out of range *)
| ValueError_no_default     (* raise ValueError("No default set!") *)
| ValueError_not_in_list (x : Z)   (* list.index(x), x absent *)
| ValueError_min_empty      (* min() of an empty sequence *)
| TypeError_NoneType        (* an operator applied to None *)
| ZeroDivisionError.        (* modulo by zero *)

Inductive PyClass : Type :=
| IndexError | ValueError | TypeError | ArithmeticError.

Definition class_of (e : PyExc) : PyClass :=
  match e with
  | IndexError_no_items | IndexError_no_current
  | IndexError_bare | IndexError_list_range => IndexError
  | ValueError_no_default | ValueError_not_in_list _
  | ValueError_min_empty => ValueError
  | TypeError_NoneType => TypeError
  | ZeroDivisionError => ArithmeticError
  end.

Definition is_IndexError (e : PyExc) : bool :=
  match class_of e with IndexError => true | _ => false end.

(** The result of evaluating a Python expression. *)
Inductive outcome (A : Type) : Type :=
| Return (a : A)
| Raise (e : PyExc).
Arguments Return {A} a.
Arguments Raise {A} e.

(** ** Built-ins used by the class *)

Definition len (l : list Z) : Z := Z.of_nat (length l).

(** [l[k]]: a negative subscript counts from the end. *)
Definition list_getitem (l : list Z) (k : Z) : outcome Z :=
  let k' := if k <? 0 then k + len l else k in
  if (k' <? 0) || (len l <=? k') then Raise IndexError_list_range
  else match nth_error l (Z.to_nat k') with
       | Some x => Return x
       | None => Raise IndexError_list_range
       end.

(** [l.index(x)]: position of the first element equal to [x]. *)
Fixpoint index_from (k : Z) (l : list Z) (x : Z) : option Z :=
  match l with
  | [] => None
  | y :: r => if y =? x then Some k else index_from (k + 1) r x
  end.

Definition list_index (l : list Z) (x : Z) : outcome Z :=
  match index_from 0 l x with
  | Some k => Return k
  | None => Raise (ValueError_not_in_list x)
  end.

(** [x in l]. *)
Definition contains (l : list Z) (x : Z) : bool := existsb (fun y => y =? x) l.

(** [enumerate(l)], counting from [k]. *)
Fixpoint enumerate_from (k : Z) (l : list Z) : list (Z * Z) :=
  match l with
  | [] => []
  | x :: r => (k, x) :: enumerate_from (k + 1) r
  end.

Definition enumerate (l : list Z) : list (Z * Z) := enumerate_from 0 l.

(** [min(l, key=key)]: the first element whose key is minimal; the running
    best is replaced only by a strictly smaller key. *)
Fixpoint min_scan {A : Type} (key : A -> Z) (best : A) (l : list A) : A :=
  match l with
  | [] => best
  | x :: r => if key x <? key best then min_scan key x r else min_scan key best r
  end.

Definition py_min {A : Type} (key : A -> Z) (l : list A) : outcome A :=
  match l with
  | [] => Raise ValueError_min_empty
  | x :: r => Return (min_scan key x r)
  end.

(** ** The object *)

(** [Modes = enum('block', 'wrap', 'exception')]: three distinct
    constants, compared with [==] only. *)
Inductive Modes : Type := block | wrap | exception.

(** Attributes of a [NeighborList].  [_default = None] stands for the
    module's [_UNSET] sentinel; [idx] and [fuzzyval] are [None] as in the
    source. *)
Record NeighborList : Type := mkNeighborList {
  _items : list Z;
  _default : option Z;
  idx : option Z;
  _mode : Modes;
  fuzzyval : option Z
}.

Definition with_idx (v : option Z) (s : NeighborList) : NeighborList :=
  {| _items := _items s; _default := _default s; idx := v;
     _mode := _mode s; fuzzyval := fuzzyval s |}.

Definition with_fuzzyval (v : option Z) (s : NeighborList) : NeighborList :=
  {| _items := _items s; _default := _default s; idx := idx s;
     _mode := _mode s; fuzzyval := v |}.

(** ** Methods as state transformers *)

(** A method body: from the attributes before to an outcome and the
    attributes after.  A raised exception keeps the attributes written
    before it. *)
Definition Py (A : Type) : Type := NeighborList -> outcome A * NeighborList.

Definition ret {A} (a : A) : Py A := fun s => (Return a, s).
Definition raise {A} (e : PyExc) : Py A := fun s => (Raise e, s).
Definition lift {A} (o : outcome A) : Py A := fun s => (o, s).

Definition bind {A B} (m : Py A) (f : A -> Py B) : Py B :=
  fun s => match m s with
           | (Return a, s') => f a s'
           | (Raise e, s') => (Raise e, s')
           end.

Declare Scope py_scope.
Delimit Scope py_scope with py.
Notation "x <- m ;; k" := (bind m (fun x => k))
  (at level 61, m at next level, right associativity) : py_scope.
Notation "m ;; k" := (bind m (fun _ => k))
  (at level 61, right associativity) : py_scope.
Open Scope py_scope.

Definition attr {A} (f : NeighborList -> A) : Py A := fun s => (Return (f s), s).
Definition set_idx (v : option Z) : Py unit := fun s => (Return tt, with_idx v s).
Definition set_fuzzyval (v : option Z) : Py unit :=
  fun s => (Return tt, with_fuzzyval v s).

(** [try: body / except IndexError: handler / else: orelse]. *)
Definition try_except_IndexError {A B}
    (body : Py A) (handler : PyExc -> Py B) (orelse : A -> Py B) : Py B :=
  fun s => match body s with
           | (Return a, s') => orelse a s'
           | (Raise e, s') =>
               if is_IndexError e then handler e s' else (Raise e, s')
           end.

(** An attribute that must hold an int for the operator applied to it. *)
Definition as_int (v : option Z) : outcome Z :=
  match v with
  | Some i => Return i
  | None => Raise TypeError_NoneType
  end.

Definition py_mod (a n : Z) : outcome Z :=
  if n =? 0 then Raise ZeroDivisionError else Return (a mod n).

(** [__init__(self, items=None, default=_UNSET, mode=Modes.exception)]. *)
Definition __init__ (items : option (list Z)) (default : option Z)
    (mode : Modes) : outcome NeighborList :=
  let its := match items with None => [] | Some l => l end in
  match default with
  | Some d =>
      match list_index its d with
      | Return i => Return (mkNeighborList its default (Some i) mode None)
      | Raise e => Raise e
      end
  | None => Return (mkNeighborList its default None mode None)
  end.

Definition __getitem__ (key : Z) : Py Z :=
  l <- attr _items ;; lift (list_getitem l key).

Definition __len__ : Py Z :=
  l <- attr _items ;; ret (len l).

(** The read-only property [items]. *)
Definition items : Py (list Z) := attr _items.

Definition curitem : Py Z :=
  i <- attr idx ;;
  match i with
  | Some k => items <- attr _items ;; lift (list_getitem items k)
  | None => raise IndexError_no_current
  end.

Definition _snap_in (offset : Z) : Py bool :=
  let op := if offset <? 0 then Z.leb else Z.geb in
  all <- attr _items ;;
  fz <- attr fuzzyval ;;
  match all, fz with
  | [], _ =>
      (* nothing to compare: min() gets an empty list *)
      raise ValueError_min_empty
  | _ :: _, None => raise TypeError_NoneType
  | _ :: _, Some f =>
      let items := filter (fun tpl => op (snd tpl) f) (enumerate all) in
      close_item <- lift (py_min (fun tpl => Z.abs (f - snd tpl)) items) ;;
      set_idx (Some (fst close_item)) ;;
      ret (negb (contains all f))
  end.

Definition _get_new_item (offset : Z) : Py Z :=
  try_except_IndexError
    (i <- attr idx ;;
     k <- lift (as_int i) ;;
     if 0 <=? k + offset then
       items <- attr _items ;;
       lift (list_getitem items (k + offset))
     else raise IndexError_bare)
    (fun e =>
       mode <- attr _mode ;;
       match mode with
       | block => curitem
       | wrap =>
           i <- attr idx ;;
           k <- lift (as_int i) ;;
           set_idx (Some (k + offset)) ;;
           i <- attr idx ;;
           k <- lift (as_int i) ;;
           l <- items ;;
           r <- lift (py_mod k (len l)) ;;
           set_idx (Some r) ;;
           curitem
       | exception => raise e
       end)
    (fun new =>
       i <- attr idx ;;
       k <- lift (as_int i) ;;
       set_idx (Some (k + offset)) ;;
       ret new).

Definition getitem (offset : Z) : Py Z :=
  items <- attr _items ;;
  match items with
  | [] => raise IndexError_no_items
  | _ :: _ =>
      fz <- attr fuzzyval ;;
      offset' <-
        match fz with
        | Some _ =>
            snapped <- _snap_in offset ;;
            let offset' :=
              if snapped && (0 <? offset) then offset - 1
              else if snapped then offset + 1
              else offset in
            set_fuzzyval None ;;
            ret offset'
        | None => ret offset
        end ;;
      _get_new_item offset'
  end.

Definition nextitem : Py Z := getitem 1.

Definition previtem : Py Z := getitem (-1).

Definition firstitem : Py Z :=
  items <- attr _items ;;
  match items with
  | [] => raise IndexError_no_items
  | _ :: _ => set_idx (Some 0) ;; curitem
  end.

Definition lastitem : Py Z :=
  items <- attr _items ;;
  match items with
  | [] => raise IndexError_no_items
  | _ :: _ => set_idx (Some (len items - 1)) ;; curitem
  end.

Definition reset : Py Z :=
  d <- attr _default ;;
  match d with
  | None => raise ValueError_no_default
  | Some x =>
      items <- attr _items ;;
      i <- lift (list_index items x) ;;
      set_idx (Some i) ;;
      curitem
  end.

(** ** Client-visible operations *)

(** What a client can do with the object: call a public method, or assign
    the public attribute [fuzzyval]. *)
Inductive call : Type :=
| call_getitem (offset : Z)
| call_nextitem
| call_previtem
| call_firstitem
| call_lastitem
| call_curitem
| call_reset
| assign_fuzzyval (v : option Z).

(** The attributes after one operation, whether it returned or raised. *)
Definition exec (c : call) (s : NeighborList) : NeighborList :=
  match c with
  | call_getitem offset => snd (getitem offset s)
  | call_nextitem => snd (nextitem s)
  | call_previtem => snd (previtem s)
  | call_firstitem => snd (firstitem s)
  | call_lastitem => snd (lastitem s)
  | call_curitem => snd (curitem s)
  | call_reset => snd (reset s)
  | assign_fuzzyval v => with_fuzzyval v s
  end.

Definition exec_all (cs : list call) (s : NeighborList) : NeighborList :=
  fold_left (fun st c => exec c st) cs s.

(** [k] successive calls of the same method, with the results in call
    order. *)
Fixpoint calls {A} (k : nat) (m : Py A) (s : NeighborList)
    : list (outcome A) * NeighborList :=
  match k with
  | O => ([], s)
  | S k' =>
      let (rs, s1) := calls k' m s in
      let (r, s2) := m s1 in
      (rs ++ [r], s2)
  end.

(** The offset [getitem] hands to [_get_new_item] after a snap. *)
Definition remaining (snapped : bool) (offset : Z) : Z :=
  if snapped && (0 <? offset) then offset - 1
  else if snapped then offset + 1
  else offset.

(** The exception the [try] block of [_get_new_item] ends with when the
    target index [t] is not an index of the list. *)
Definition border_error (t : Z) : PyExc :=
  if 0 <=? t then IndexError_list_range else IndexError_bare.

(** The list [_snap_in] builds and the element [min] picks from it, for a
    list [all] and a fuzzy value [f]. *)
Definition candidates (offset : Z) (all : list Z) (f : Z) : list (Z * Z) :=
  filter (fun tpl => (if offset <? 0 then Z.leb else Z.geb) (snd tpl) f)
         (enumerate all).

Definition close_item (offset : Z) (all : list Z) (f : Z) : outcome (Z * Z) :=
  py_min (fun tpl => Z.abs (f - snd tpl)) (candidates offset all f).

(** The comparison [_snap_in] filters with, [op(e, fuzzyval)], as a
    proposition: [e <= f] for a negative offset, [e >= f] otherwise. *)
Definition toward (offset e f : Z) : Prop :=
  if offset <? 0 then e <= f else f <= e.

(** ** Vocabulary of the specification *)

(** The cursor, when present, is a valid index. *)
Definition cursor_valid (s : NeighborList) : Prop :=
  match idx s with
  | None => True
  | Some i => 0 <= i < len (_items s)
  end.

(** The attributes no method assigns after construction. *)
Definition frame (s s' : NeighborList) : Prop :=
  _items s' = _items s /\ _default s' = _default s /\ _mode s' = _mode s.

(** The item under a valid index. *)
Definition item_at (s : NeighborList) (i : Z) : Z :=
  nth (Z.to_nat i) (_items s) 0.

(** The error kinds the specification names, and the exception each one
    stands for in the source. *)
Inductive ErrorKind : Type :=
| EmptyList | NoCurrentItem | NoDefaultConfigured | IndexOutOfRange
| DefaultNotMember.

Definition error_kind (e : PyExc) : option ErrorKind :=
  match e with
  | IndexError_no_items => Some EmptyList
  | IndexError_no_current => Some NoCurrentItem
  | IndexError_bare | IndexError_list_range => Some IndexOutOfRange
  | ValueError_no_default => Some NoDefaultConfigured
  | ValueError_not_in_list _ => Some DefaultNotMember
  | ValueError_min_empty | TypeError_NoneType | ZeroDivisionError => None
  end.

Definition fails_with {A} (k : ErrorKind) (r : outcome A) : Prop :=
  exists e, r = Raise e /\ error_kind e = Some k.

(** A call fails with an error of kind [k] and writes no attribute. *)
Definition raises {A} (k : ErrorKind) (m : Py A) (s : NeighborList) : Prop :=
  exists e, m s = (Raise e, s) /\ error_kind e = Some k.

(** [NeighborList([1, 3, 5, 7])] with arbitrary settings, and the empty
    list [NeighborList([])]. *)
Definition odd_levels (default i : option Z) (mode : Modes)
    (fz : option Z) : NeighborList :=
  mkNeighborList [1; 3; 5; 7] default i mode fz.

Definition no_levels : NeighborList :=
  mkNeighborList [] None None exception None.

(** ** The enumeration factory *)

(** A [dict] as the list of its items, in insertion order: assigning to
    a key that is present replaces its value in place. *)
Fixpoint dict_set {K V} (eqb : K -> K -> bool) (d : list (K * V))
    (k : K) (v : V) : list (K * V) :=
  match d with
  | [] => [(k, v)]
  | (k', v') :: r =>
      if eqb k' k then (k', v) :: r else (k', v') :: dict_set eqb r k v
  end.

(** [dict(pairs)]. *)
Definition dict_of {K V} (eqb : K -> K -> bool) (pairs : list (K * V))
    : list (K * V) :=
  fold_left (fun d kv => dict_set eqb d (fst kv) (snd kv)) pairs [].

(** [d[k]]; [None] stands for the KeyError of a missing key. *)
Fixpoint dict_get {K V} (eqb : K -> K -> bool) (d : list (K * V)) (k : K)
    : option V :=
  match d with
  | [] => None
  | (k', v) :: r => if eqb k' k then Some v else dict_get eqb r k
  end.




(** The metaclass [EnumBase]: a class built by it keeps the dictionary it
    was built from and, in [_mapping], the reverse of that dictionary. *)
Module EnumBase.

Record t : Type := mk {
  name : string;
  fields : list (string * Z);
  _mapping : list (Z * string)
}.

(** [EnumBase(name, base, fields)], the class after [__init__]. *)
Definition __init__ (name : string) (fields : list (string * Z)) : t :=
  mk name fields
     (dict_of Z.eqb (map (fun kv => (snd kv, fst kv)) fields)).

(** [cls[key]]. *)
Definition __getitem__ (cls : t) (key : Z) : option string :=
  dict_get Z.eqb (_mapping cls) key.

End EnumBase.



(** ** Proof support *)

#[local] Arguments list_getitem : simpl never.
#[local] Arguments list_index : simpl never.
#[local] Arguments py_min : simpl never.
#[local] Arguments py_mod : simpl never.
#[local] Arguments len : simpl never.
#[local] Arguments item_at : simpl never.

Ltac run_py :=
  unfold try_except_IndexError, bind, items, attr, lift, ret, raise,
    set_idx, set_fuzzyval, as_int, with_idx, with_fuzzyval; cbn.

Ltac open_obj s :=
  destruct s as [its dflt ix md fz]; cbn [_items _default idx _mode fuzzyval] in *;
  subst.

(** * Properties *)

(** ** Built-ins *)

Lemma len_nonneg l : 0 <= len l.
Proof. unfold len. lia. Qed.

Lemma len_cons x l : len (x :: l) = len l + 1.
Proof. unfold len. simpl length. lia. Qed.

Lemma len_pos l : l <> [] -> 0 < len l.
Proof. destruct l; [congruence | rewrite len_cons; pose proof (len_nonneg l); lia]. Qed.

Lemma list_getitem_inside l k :
  0 <= k < len l -> list_getitem l k = Return (nth (Z.to_nat k) l 0).
Proof.
  intros [H0 H1]. unfold list_getitem.
  assert (E1 : (k <? 0) = false) by (apply Z.ltb_ge; lia).
  assert (E2 : (len l <=? k) = false) by (apply Z.leb_gt; lia).
  cbv zeta. rewrite E1. cbv iota. rewrite E1, E2. cbn [orb].
  destruct (nth_error l (Z.to_nat k)) eqn:E.
  - f_equal. symmetry. now apply nth_error_nth.
  - apply nth_error_None in E. unfold len in H1. lia.
Qed.

Lemma list_getitem_beyond l k :
  len l <= k -> list_getitem l k = Raise IndexError_list_range.
Proof.
  intros H. pose proof (len_nonneg l). unfold list_getitem.
  assert (E1 : (k <? 0) = false) by (apply Z.ltb_ge; lia).
  assert (E2 : (len l <=? k) = true) by (apply Z.leb_le; lia).
  cbv zeta. rewrite E1. cbv iota. rewrite E1, E2. reflexivity.
Qed.

Lemma index_from_spec l : forall k x j,
  index_from k l x = Some j ->
  k <= j < k + len l /\ nth_error l (Z.to_nat (j - k)) = Some x.
Proof.
  induction l as [|y r IH]; intros k x j; simpl; [discriminate|].
  rewrite len_cons. pose proof (len_nonneg r) as Hr.
  destruct (Z.eqb_spec y x) as [->|_]; intros H.
  - injection H as <-. rewrite Z.sub_diag. simpl. split; [lia | reflexivity].
  - apply IH in H as [Hj Hn]. split; [lia|].
    replace (Z.to_nat (j - k)) with (S (Z.to_nat (j - (k + 1)))) by lia.
    exact Hn.
Qed.

Lemma list_index_getitem l x i :
  list_index l x = Return i ->
  0 <= i < len l /\ list_getitem l i = Return x.
Proof.
  unfold list_index. destruct (index_from 0 l x) as [j|] eqn:E; [|discriminate].
  intros H; injection H as <-.
  apply index_from_spec in E as [Hj Hn]. rewrite Z.sub_0_r in Hn.
  split; [lia|]. rewrite list_getitem_inside by lia.
  f_equal. now apply nth_error_nth.
Qed.

Lemma enumerate_from_index l : forall k p,
  In p (enumerate_from k l) -> k <= fst p < k + len l.
Proof.
  induction l as [|x r IH]; intros k p; simpl; [tauto|].
  rewrite len_cons. pose proof (len_nonneg r) as Hr.
  intros [<- | H]; [simpl; lia | apply IH in H; lia].
Qed.

Lemma min_scan_In {A} (key : A -> Z) l : forall best,
  min_scan key best l = best \/ In (min_scan key best l) l.
Proof.
  induction l as [|x r IH]; intros best; simpl; [now left|].
  destruct (key x <? key best).
  - destruct (IH x) as [-> | H]; auto.
  - destruct (IH best) as [-> | H]; auto.
Qed.

Lemma py_min_In {A} (key : A -> Z) l a : py_min key l = Return a -> In a l.
Proof.
  destruct l as [|x r]; simpl; [discriminate|].
  intros H; injection H as <-.
  destruct (min_scan_In key r x) as [-> | H]; auto.
Qed.

Lemma filter_enumerate_none (p : Z -> bool) l : forall k,
  Forall (fun e => p e = false) l ->
  filter (fun tpl => p (snd tpl)) (enumerate_from k l) = [].
Proof.
  induction l as [|x r IH]; intros k H; simpl; [reflexivity|].
  inversion H as [|? ? Hx Hr]; subst. rewrite Hx. now apply IH.
Qed.

(** ** Moving the cursor: [_get_new_item] *)

Lemma with_idx_same s : with_idx (idx s) s = s.
Proof. now destruct s. Qed.

Lemma with_fuzzyval_same s : with_fuzzyval (fuzzyval s) s = s.
Proof. now destruct s. Qed.

Lemma curitem_valid s i :
  idx s = Some i -> 0 <= i < len (_items s) ->
  curitem s = (Return (item_at s i), s).
Proof.
  intros Hi Hr. open_obj s. unfold curitem. run_py.
  rewrite list_getitem_inside by lia; reflexivity.
Qed.

Lemma curitem_None s :
  idx s = None -> curitem s = (Raise IndexError_no_current, s).
Proof. intros Hi. open_obj s. reflexivity. Qed.

Lemma get_new_item_None offset s :
  idx s = None -> _get_new_item offset s = (Raise TypeError_NoneType, s).
Proof. intros Hi. open_obj s. reflexivity. Qed.

Lemma get_new_item_inside offset s i :
  idx s = Some i -> 0 <= i + offset < len (_items s) ->
  _get_new_item offset s
  = (Return (item_at s (i + offset)), with_idx (Some (i + offset)) s).
Proof.
  intros Hi Hr. open_obj s.
  assert (Hb : (0 <=? i + offset) = true) by (apply Z.leb_le; lia).
  pose proof (list_getitem_inside its (i + offset) Hr) as Hg.
  unfold _get_new_item. run_py. rewrite Hb. cbn. rewrite Hg. reflexivity.
Qed.

Lemma get_new_item_outside offset s i :
  idx s = Some i -> 0 <= i < len (_items s) ->
  ~ 0 <= i + offset < len (_items s) ->
  _get_new_item offset s
  = match _mode s with
    | block => (Return (item_at s i), s)
    | wrap =>
        let j := (i + offset) mod len (_items s) in
        (Return (item_at s j), with_idx (Some j) s)
    | exception => (Raise (border_error (i + offset)), s)
    end.
Proof.
  intros Hi Hr Hout. open_obj s. unfold _get_new_item, border_error. run_py.
  assert (Hmod : 0 <= (i + offset) mod len its < len its)
    by (apply Z.mod_pos_bound; lia).
  assert (Hn0 : (len its =? 0) = false) by (apply Z.eqb_neq; lia).
  assert (Hcur : list_getitem its i = Return (nth (Z.to_nat i) its 0))
    by (apply list_getitem_inside; lia).
  assert (Hwrap : list_getitem its ((i + offset) mod len its)
                  = Return (nth (Z.to_nat ((i + offset) mod len its)) its 0))
    by (apply list_getitem_inside; lia).
  destruct (Z.leb_spec 0 (i + offset)) as [Hge | Hlt]; cbn.
  - rewrite (list_getitem_beyond its (i + offset)) by lia. cbn.
    destruct md; cbn; unfold curitem, py_mod; run_py;
      rewrite ?Hn0; cbn; rewrite ?Hcur, ?Hwrap; reflexivity.
  - destruct md; cbn; unfold curitem, py_mod; run_py;
      rewrite ?Hn0; cbn; rewrite ?Hcur, ?Hwrap; reflexivity.
Qed.

(** ** Snapping and stepping: [_snap_in], [getitem] *)

Lemma snap_in_unfold offset s f :
  _items s <> [] -> fuzzyval s = Some f ->
  _snap_in offset s
  = match close_item offset (_items s) f with
    | Return c =>
        (Return (negb (contains (_items s) f)), with_idx (Some (fst c)) s)
    | Raise e => (Raise e, s)
    end.
Proof.
  intros Hne Hf. open_obj s. destruct its as [|x r]; [congruence|].
  unfold _snap_in, close_item, candidates. run_py.
  destruct (py_min _ _); reflexivity.
Qed.

Lemma close_item_index offset all f c :
  close_item offset all f = Return c -> 0 <= fst c < len all.
Proof.
  intros H. apply py_min_In in H. unfold candidates in H.
  apply filter_In in H as [H _]. apply enumerate_from_index in H. lia.
Qed.

Lemma getitem_empty offset s :
  _items s = [] -> getitem offset s = (Raise IndexError_no_items, s).
Proof. intros H. open_obj s. reflexivity. Qed.

Lemma getitem_plain offset s :
  _items s <> [] -> fuzzyval s = None ->
  getitem offset s = _get_new_item offset s.
Proof.
  intros Hne Hf. open_obj s. destruct its as [|x r]; [congruence|].
  reflexivity.
Qed.

Lemma getitem_fuzzy offset s f :
  _items s <> [] -> fuzzyval s = Some f ->
  getitem offset s
  = match _snap_in offset s with
    | (Return snapped, s1) =>
        _get_new_item (remaining snapped offset) (with_fuzzyval None s1)
    | (Raise e, s1) => (Raise e, s1)
    end.
Proof.
  intros Hne Hf. open_obj s. destruct its as [|x r]; [congruence|].
  unfold getitem, remaining, bind at 1 2 3. cbn [attr _items fuzzyval].
  unfold bind at 1 2.
  destruct (_snap_in _ _) as [[b|e] s1]; reflexivity.
Qed.

(** ** What the methods leave behind *)

Lemma frame_refl s : frame s s.
Proof. now unfold frame. Qed.

Lemma frame_with_idx v s : frame s (with_idx v s).
Proof. now unfold frame. Qed.

Lemma frame_trans s1 s2 s3 : frame s1 s2 -> frame s2 s3 -> frame s1 s3.
Proof. unfold frame. intros (a & b & c) (d & e & f). repeat split; congruence. Qed.

Lemma cursor_valid_with_idx s i :
  0 <= i < len (_items s) -> cursor_valid (with_idx (Some i) s).
Proof. intros H. exact H. Qed.

Lemma curitem_state s : snd (curitem s) = s.
Proof.
  open_obj s. destruct ix as [k|]; [|reflexivity].
  unfold curitem. run_py. reflexivity.
Qed.

Lemma get_new_item_keeps offset s :
  cursor_valid s ->
  let s' := snd (_get_new_item offset s) in
  cursor_valid s' /\ frame s s' /\ fuzzyval s' = fuzzyval s.
Proof.
  unfold cursor_valid at 1. destruct (idx s) as [i|] eqn:Hi; intros Hv.
  - assert (Hs : cursor_valid s) by (unfold cursor_valid; now rewrite Hi).
    destruct (Z.le_gt_cases 0 (i + offset)) as [Hlo|Hlo];
      [destruct (Z.lt_ge_cases (i + offset) (len (_items s))) as [Hhi|Hhi]|].
    + rewrite (get_new_item_inside offset s i) by (auto; lia). cbn.
      split; [apply cursor_valid_with_idx; lia|].
      split; [apply frame_with_idx | reflexivity].
    + rewrite (get_new_item_outside offset s i) by (auto; lia).
      destruct (_mode s); cbn;
        (split; [first [exact Hs | apply cursor_valid_with_idx, Z.mod_pos_bound; lia]
                | split; [first [apply frame_refl | apply frame_with_idx]
                         | reflexivity]]).
    + rewrite (get_new_item_outside offset s i) by (auto; lia).
      destruct (_mode s); cbn;
        (split; [first [exact Hs | apply cursor_valid_with_idx, Z.mod_pos_bound; lia]
                | split; [first [apply frame_refl | apply frame_with_idx]
                         | reflexivity]]).
  - rewrite get_new_item_None by assumption. cbn.
    split; [unfold cursor_valid; now rewrite Hi|].
    split; [apply frame_refl | reflexivity].
Qed.

Lemma snap_in_cases offset s :
  (exists e, _snap_in offset s = (Raise e, s)) \/
  (exists b i, 0 <= i < len (_items s) /\
               _snap_in offset s = (Return b, with_idx (Some i) s)).
Proof.
  destruct (_items s) as [|x r] eqn:Hit.
  - left. exists ValueError_min_empty. open_obj s. reflexivity.
  - destruct (fuzzyval s) as [f|] eqn:Hf.
    + rewrite (snap_in_unfold offset s f) by congruence.
      destruct (close_item offset (_items s) f) as [c|e] eqn:Hc.
      * right. exists (negb (contains (_items s) f)), (fst c).
        apply close_item_index in Hc. rewrite <- Hit. now split.
      * left. now exists e.
    + left. exists TypeError_NoneType. open_obj s. reflexivity.
Qed.

Lemma snap_in_keeps offset s :
  cursor_valid s ->
  let s' := snd (_snap_in offset s) in
  cursor_valid s' /\ frame s s'.
Proof.
  intros Hv.
  destruct (snap_in_cases offset s) as [[e ->] | (b & i & Hi & ->)]; cbn.
  - split; [assumption | apply frame_refl].
  - split; [now apply cursor_valid_with_idx | apply frame_with_idx].
Qed.

Lemma getitem_keeps offset s :
  cursor_valid s ->
  let s' := snd (getitem offset s) in
  cursor_valid s' /\ frame s s'.
Proof.
  intros Hv. destruct (_items s) as [|x r] eqn:Hit.
  - rewrite getitem_empty by assumption. cbn. split; [assumption | apply frame_refl].
  - destruct (fuzzyval s) as [f|] eqn:Hf.
    + rewrite (getitem_fuzzy offset s f) by congruence.
      destruct (snap_in_cases offset s) as [[e ->] | (b & i & Hi & ->)]; cbn.
      * split; [assumption | apply frame_refl].
      * destruct (get_new_item_keeps (remaining b offset)
                    (with_fuzzyval None (with_idx (Some i) s)))
          as (Hv' & Hfr & _); [exact Hi|].
        split; [exact Hv' | exact Hfr].
    + rewrite getitem_plain by congruence.
      destruct (get_new_item_keeps offset s Hv) as (Hv' & Hfr & _). now split.
Qed.

Lemma firstitem_nonempty s :
  _items s <> [] ->
  firstitem s = (Return (item_at s 0), with_idx (Some 0) s).
Proof.
  intros Hne. pose proof (len_pos _ Hne) as Hlen. open_obj s.
  destruct its as [|x r]; [congruence|]. reflexivity.
Qed.

Lemma lastitem_nonempty s :
  _items s <> [] ->
  let j := len (_items s) - 1 in
  lastitem s = (Return (item_at s j), with_idx (Some j) s).
Proof.
  intros Hne. pose proof (len_pos _ Hne) as Hlen. open_obj s.
  destruct its as [|x r]; [congruence|].
  unfold lastitem, curitem. run_py.
  rewrite list_getitem_inside by lia. reflexivity.
Qed.

Lemma firstitem_empty s :
  _items s = [] -> firstitem s = (Raise IndexError_no_items, s).
Proof. intros H. open_obj s. reflexivity. Qed.

Lemma lastitem_empty s :
  _items s = [] -> lastitem s = (Raise IndexError_no_items, s).
Proof. intros H. open_obj s. reflexivity. Qed.

Lemma reset_unset s :
  _default s = None -> reset s = (Raise ValueError_no_default, s).
Proof. intros H. open_obj s. reflexivity. Qed.

Lemma reset_found s d i :
  _default s = Some d -> list_index (_items s) d = Return i ->
  reset s = (Return d, with_idx (Some i) s).
Proof.
  intros Hd Hi. apply list_index_getitem in Hi as Hg. destruct Hg as [_ Hg].
  open_obj s. unfold reset, curitem. run_py. rewrite Hi. cbn. rewrite Hg.
  reflexivity.
Qed.

Lemma reset_missing s d e :
  _default s = Some d -> list_index (_items s) d = Raise e ->
  reset s = (Raise e, s).
Proof.
  intros Hd Hi. open_obj s. unfold reset. run_py. rewrite Hi. reflexivity.
Qed.

Lemma exec_keeps c s :
  cursor_valid s -> cursor_valid (exec c s) /\ frame s (exec c s).
Proof.
  intros Hv. destruct c; cbn [exec].
  - now apply getitem_keeps.
  - now apply getitem_keeps.
  - now apply getitem_keeps.
  - destruct (_items s) as [|x r] eqn:Hit.
    + rewrite firstitem_empty by assumption. split; [assumption | apply frame_refl].
    + rewrite firstitem_nonempty by congruence. cbn.
      split; [|apply frame_with_idx].
      apply cursor_valid_with_idx. rewrite Hit, len_cons.
      pose proof (len_nonneg r). lia.
  - destruct (_items s) as [|x r] eqn:Hit.
    + rewrite lastitem_empty by assumption. split; [assumption | apply frame_refl].
    + rewrite lastitem_nonempty by congruence. cbn.
      split; [|apply frame_with_idx].
      apply cursor_valid_with_idx. rewrite Hit, len_cons.
      pose proof (len_nonneg r). lia.
  - rewrite curitem_state. split; [assumption | apply frame_refl].
  - destruct (_default s) as [d|] eqn:Hd.
    + destruct (list_index (_items s) d) as [i|e] eqn:Hi.
      * rewrite (reset_found s d i) by assumption. cbn.
        split; [|apply frame_with_idx].
        apply cursor_valid_with_idx. now apply list_index_getitem in Hi.
      * rewrite (reset_missing s d e) by assumption.
        split; [assumption | apply frame_refl].
    + rewrite reset_unset by assumption. split; [assumption | apply frame_refl].
  - split; [exact Hv | now unfold frame].
Qed.

Lemma exec_all_keeps cs : forall s,
  cursor_valid s -> cursor_valid (exec_all cs s) /\ frame s (exec_all cs s).
Proof.
  induction cs as [|c cs IH]; intros s Hv; cbn.
  - split; [assumption | apply frame_refl].
  - destruct (exec_keeps c s Hv) as [Hv1 Hf1].
    destruct (IH _ Hv1) as [Hv2 Hf2].
    split; [assumption | eapply frame_trans; eassumption].
Qed.

Lemma init_cursor_valid items default mode s :
  __init__ items default mode = Return s -> cursor_valid s.
Proof.
  unfold __init__. destruct default as [d|].
  - destruct (list_index _ d) as [i|e] eqn:Hi; [|discriminate].
    intros H; injection H as <-. apply list_index_getitem in Hi. exact (proj1 Hi).
  - intros H; injection H as <-. exact I.
Qed.

(** ** Repeated [nextitem] at and across the border *)

Lemma nextitem_wrap s i :
  _items s <> [] -> _mode s = wrap -> fuzzyval s = None ->
  idx s = Some i -> 0 <= i < len (_items s) ->
  let j := (i + 1) mod len (_items s) in
  nextitem s = (Return (item_at s j), with_idx (Some j) s).
Proof.
  intros Hne Hm Hf Hi Hr. unfold nextitem. rewrite getitem_plain by assumption.
  destruct (Z.lt_ge_cases (i + 1) (len (_items s))) as [Hin|Hout].
  - rewrite (get_new_item_inside 1 s i) by (auto; lia). cbv zeta.
    now rewrite Z.mod_small by lia.
  - rewrite (get_new_item_outside 1 s i) by (auto; lia). now rewrite Hm.
Qed.

Lemma wrap_calls s i :
  _items s <> [] -> _mode s = wrap -> fuzzyval s = None ->
  idx s = Some i -> 0 <= i < len (_items s) ->
  forall k,
    calls k nextitem s
    = (map (fun j => Return (item_at s ((i + Z.of_nat j) mod len (_items s))))
           (seq 1 k),
       with_idx (Some ((i + Z.of_nat k) mod len (_items s))) s).
Proof.
  intros Hne Hm Hf Hi Hr k. induction k as [|k IH].
  - cbn [calls seq map]. rewrite Z.add_0_r, Z.mod_small by lia.
    now rewrite <- Hi, with_idx_same.
  - cbn [calls]. rewrite IH. clear IH.
    set (n := len (_items s)) in *. set (j := (i + Z.of_nat k) mod n).
    assert (Hj : 0 <= j < n) by (apply Z.mod_pos_bound; lia).
    rewrite (nextitem_wrap (with_idx (Some j) s) j) by (auto; exact Hj).
    cbv zeta. cbn [_items with_idx]. fold n.
    replace ((j + 1) mod n) with ((i + Z.of_nat (S k)) mod n).
    + rewrite seq_S, map_app. cbn [map]. reflexivity.
    + unfold j. rewrite Z.add_mod_idemp_l by lia. f_equal. lia.
Qed.

Lemma nextitem_block_last s :
  _items s <> [] -> _mode s = block -> fuzzyval s = None ->
  idx s = Some (len (_items s) - 1) ->
  nextitem s = (Return (item_at s (len (_items s) - 1)), s).
Proof.
  intros Hne Hm Hf Hi. pose proof (len_pos _ Hne) as Hlen.
  unfold nextitem. rewrite getitem_plain by assumption.
  rewrite (get_new_item_outside 1 s (len (_items s) - 1)) by (auto; lia).
  now rewrite Hm.
Qed.

(** * The specification's claims *)

(** C1, as stated, fails: on [NeighborList([1, 3, 5, 7])] with
    [fuzzyval = 3], [nextitem()] does not return 3.  The snap puts the
    cursor on 3 and reports that nothing snapped, so the whole offset is
    still applied and the call returns 5. *)
Lemma exact_member_snap_counterexample :
  __init__ (Some [1; 3; 5; 7]) None exception
    = Return (odd_levels None None exception None) /\
  nextitem (with_fuzzyval (Some 3) (odd_levels None None exception None))
    = (Return 5, odd_levels None (Some 2) exception None) /\
  fst (nextitem (with_fuzzyval (Some 3) (odd_levels None None exception None)))
    <> Return 3.
Proof. repeat split. discriminate. Qed.

(** C1, amended: for the list [1, 3, 5, 7] with [fuzzyval = 3], the snap
    puts the cursor on the index of 3 and, 3 being a member, consumes none
    of the offset; [nextitem()] then moves one item further and returns 5,
    with the cursor on index 2 and the fuzzy value cleared. *)
Theorem exact_member_snap_steps_on (default i : option Z) (mode : Modes) :
  _snap_in 1 (odd_levels default i mode (Some 3))
    = (Return false, odd_levels default (Some 1) mode (Some 3)) /\
  nextitem (odd_levels default i mode (Some 3))
    = (Return 5, odd_levels default (Some 2) mode None).
Proof. split; reflexivity. Qed.

(** C2: for the list [1, 3, 5, 7] with [fuzzyval = 4], [nextitem()] snaps
    to 5, the nearest item above 4, the snap uses up the offset, and the
    call returns 5 (not 7); [previtem()] snaps to 3, the nearest item
    below 4, and returns 3. *)
Theorem non_member_snap (default i : option Z) (mode : Modes) :
  nextitem (odd_levels default i mode (Some 4))
    = (Return 5, odd_levels default (Some 2) mode None) /\
  fst (nextitem (odd_levels default i mode (Some 4))) <> Return 7 /\
  previtem (odd_levels default i mode (Some 4))
    = (Return 3, odd_levels default (Some 1) mode None).
Proof. repeat split. discriminate. Qed.

(** C3, as stated, fails for [curitem]: on [NeighborList([])] it raises
    IndexError("No current item!"), which is the kind NoCurrentItem and
    not EmptyList. *)
Lemma curitem_empty_counterexample :
  __init__ (Some []) None exception = Return no_levels /\
  curitem no_levels = (Raise IndexError_no_current, no_levels) /\
  ~ fails_with EmptyList (fst (curitem no_levels)).
Proof.
  repeat split. intros (e & He & Hk). cbn in He.
  injection He as <-. discriminate Hk.
Qed.

(** C3, amended: on a list constructed with zero items, at any later
    time, [nextitem], [previtem], [firstitem] and [lastitem] fail with
    EmptyList, and [curitem] fails with NoCurrentItem; none of the five
    writes an attribute. *)
Theorem empty_list_failures (items : option (list Z)) (default : option Z)
    (mode : Modes) (s0 : NeighborList) (cs : list call) :
  __init__ items default mode = Return s0 ->
  _items s0 = [] ->
  let s := exec_all cs s0 in
  raises EmptyList nextitem s /\
  raises EmptyList previtem s /\
  raises EmptyList firstitem s /\
  raises EmptyList lastitem s /\
  raises NoCurrentItem curitem s.
Proof.
  intros Hinit Hempty s.
  destruct (exec_all_keeps cs s0 (init_cursor_valid _ _ _ _ Hinit))
    as [Hv (Hit & _ & _)].
  fold s in Hv, Hit. rewrite Hempty in Hit.
  assert (Hidx : idx s = None).
  { unfold cursor_valid in Hv. rewrite Hit in Hv.
    destruct (idx s) as [k|]; [|reflexivity]. unfold len in Hv. cbn in Hv. lia. }
  repeat split.
  - exists IndexError_no_items. split; [now apply getitem_empty | reflexivity].
  - exists IndexError_no_items. split; [now apply getitem_empty | reflexivity].
  - exists IndexError_no_items. split; [now apply firstitem_empty | reflexivity].
  - exists IndexError_no_items. split; [now apply lastitem_empty | reflexivity].
  - exists IndexError_no_current. split; [now apply curitem_None | reflexivity].
Qed.

Lemma empty_list_failures_witness :
  raises EmptyList nextitem no_levels /\
  raises EmptyList previtem no_levels /\
  raises EmptyList firstitem no_levels /\
  raises EmptyList lastitem no_levels /\
  raises NoCurrentItem curitem no_levels.
Proof.
  apply (empty_list_failures (Some []) None exception no_levels []);
    reflexivity.
Defined.

(** C4: in [wrap] mode, on a non-empty list with a valid cursor and no
    fuzzy value, [len(items)] calls of [nextitem()] all return, the last
    of them returns the item the cursor started on (the one [curitem()]
    gives beforehand), and the object is back in its starting state,
    cursor included. *)
Theorem wrap_full_cycle (s : NeighborList) (i : Z) :
  _items s <> [] -> _mode s = wrap -> fuzzyval s = None ->
  idx s = Some i -> 0 <= i < len (_items s) ->
  curitem s = (Return (item_at s i), s) /\
  exists xs,
    calls (length (_items s)) nextitem s
    = (map Return xs ++ [Return (item_at s i)], s) /\
    idx (snd (calls (length (_items s)) nextitem s)) = Some i.
Proof.
  intros Hne Hm Hf Hi Hr. split; [now apply curitem_valid|].
  rewrite (wrap_calls s i Hne Hm Hf Hi Hr).
  destruct (length (_items s)) as [|m] eqn:Hlen.
  - destruct (_items s); [congruence | discriminate].
  - assert (Hback : (i + Z.of_nat (S m)) mod len (_items s) = i).
    { unfold len in *. rewrite Hlen in *.
      rewrite <- (Z.mul_1_l (Z.of_nat (S m))) at 1.
      rewrite Z.mod_add by lia. apply Z.mod_small. lia. }
    exists (map (fun j => item_at s ((i + Z.of_nat j) mod len (_items s)))
                (seq 1 m)).
    rewrite Hback. split; [|reflexivity].
    rewrite seq_S, !map_app, map_map. cbn [map].
    replace (Z.of_nat (1 + m)) with (Z.of_nat (S m)) by reflexivity.
    rewrite Hback. now rewrite <- Hi, with_idx_same.
Qed.

Lemma wrap_full_cycle_witness :
  curitem (odd_levels None (Some 2) wrap None)
    = (Return 5, odd_levels None (Some 2) wrap None) /\
  exists xs,
    calls 4 nextitem (odd_levels None (Some 2) wrap None)
    = (map Return xs ++ [Return 5], odd_levels None (Some 2) wrap None) /\
    idx (snd (calls 4 nextitem (odd_levels None (Some 2) wrap None))) = Some 2.
Proof.
  apply (wrap_full_cycle (odd_levels None (Some 2) wrap None) 2);
    try reflexivity; [discriminate | split; [lia | reflexivity]].
Defined.

(** C5: in [exception] mode, on a non-empty list with the cursor on
    index 0 and no fuzzy value, [previtem()] fails with IndexOutOfRange
    (the bare IndexError of [_get_new_item]) and the cursor, like every
    other attribute, is as before. *)
Theorem prev_at_first_raises (s : NeighborList) :
  _items s <> [] -> _mode s = exception -> fuzzyval s = None ->
  idx s = Some 0 ->
  previtem s = (Raise IndexError_bare, s) /\
  raises IndexOutOfRange previtem s /\
  idx (snd (previtem s)) = Some 0.
Proof.
  intros Hne Hm Hf Hi. pose proof (len_pos _ Hne) as Hlen.
  assert (H : previtem s = (Raise IndexError_bare, s)).
  { unfold previtem. rewrite getitem_plain by assumption.
    rewrite (get_new_item_outside (-1) s 0) by (auto; lia).
    now rewrite Hm. }
  split; [exact H|]. split.
  - exists IndexError_bare. now split.
  - now rewrite H.
Qed.

Lemma prev_at_first_raises_witness :
  previtem (odd_levels None (Some 0) exception None)
    = (Raise IndexError_bare, odd_levels None (Some 0) exception None) /\
  raises IndexOutOfRange previtem (odd_levels None (Some 0) exception None) /\
  idx (snd (previtem (odd_levels None (Some 0) exception None))) = Some 0.
Proof.
  apply (prev_at_first_raises (odd_levels None (Some 0) exception None));
    try reflexivity; discriminate.
Defined.

(** C6: in [block] mode, on a non-empty list with the cursor on the last
    index and no fuzzy value, any number of [nextitem()] calls each return
    the last item, and the cursor stays on the last index. *)
Theorem block_at_last (s : NeighborList) (k : nat) :
  _items s <> [] -> _mode s = block -> fuzzyval s = None ->
  idx s = Some (len (_items s) - 1) ->
  calls k nextitem s
    = (repeat (Return (item_at s (len (_items s) - 1))) k, s) /\
  idx (snd (calls k nextitem s)) = Some (len (_items s) - 1).
Proof.
  intros Hne Hm Hf Hi.
  assert (H : calls k nextitem s
              = (repeat (Return (item_at s (len (_items s) - 1))) k, s)).
  { induction k as [|k IH]; [reflexivity|].
    cbn [calls]. rewrite IH, nextitem_block_last by assumption.
    now rewrite <- repeat_cons. }
  split; [exact H | now rewrite H].
Qed.

Lemma block_at_last_witness :
  calls 3 nextitem (odd_levels None (Some 3) block None)
    = ([Return 7; Return 7; Return 7], odd_levels None (Some 3) block None) /\
  idx (snd (calls 3 nextitem (odd_levels None (Some 3) block None))) = Some 3.
Proof.
  apply (block_at_last (odd_levels None (Some 3) block None) 3);
    try reflexivity; discriminate.
Defined.

(** C7: when a default was given to the constructor (which checks that it
    is in the list), [reset()] after any sequence of operations, step
    calls among them, returns that default and puts the cursor on its
    index; when no default was given, [reset()] fails with
    NoDefaultConfigured. *)
Theorem reset_after_calls (items : option (list Z)) (default : option Z)
    (mode : Modes) (s0 : NeighborList) (cs : list call) :
  __init__ items default mode = Return s0 ->
  let s := exec_all cs s0 in
  match default with
  | Some d =>
      exists i, list_index (_items s0) d = Return i /\
                list_getitem (_items s0) i = Return d /\
                reset s = (Return d, with_idx (Some i) s)
  | None => raises NoDefaultConfigured reset s
  end.
Proof.
  intros Hinit s.
  destruct (exec_all_keeps cs s0 (init_cursor_valid _ _ _ _ Hinit))
    as [_ (Hit & Hd & _)].
  fold s in Hit, Hd. unfold __init__ in Hinit. destruct default as [d|].
  - destruct (list_index _ d) as [i|e] eqn:Hi; [|discriminate].
    injection Hinit as <-. cbn [_items _default] in *.
    exists i. split; [exact Hi|].
    split; [now apply list_index_getitem in Hi|].
    apply reset_found; congruence.
  - injection Hinit as <-. cbn [_default] in Hd.
    exists ValueError_no_default. split; [now apply reset_unset | reflexivity].
Qed.

Lemma reset_after_calls_witness :
  (exists i, list_index [1; 3; 5; 7] 5 = Return i /\
             list_getitem [1; 3; 5; 7] i = Return 5 /\
             reset (odd_levels (Some 5) (Some 1) wrap None)
             = (Return 5, odd_levels (Some 5) (Some i) wrap None)) /\
  raises NoDefaultConfigured reset (odd_levels None (Some 3) block (Some 9)).
Proof.
  split.
  - apply (reset_after_calls (Some [1; 3; 5; 7]) (Some 5) wrap
             (odd_levels (Some 5) (Some 2) wrap None)
             [call_nextitem; call_getitem 2]).
    reflexivity.
  - apply (reset_after_calls (Some [1; 3; 5; 7]) None block
             (odd_levels None None block None)
             [call_lastitem; assign_fuzzyval (Some 9)]).
    reflexivity.
Defined.

(** C8: the cursor, when present, is a valid index of the list: this holds
    for the object [__init__] builds, and from any object where it holds
    it still holds after every operation, returning or raising: [getitem]
    with any offset (hence [nextitem] and [previtem]) in every mode,
    with or without a fuzzy value, [firstitem], [lastitem], [curitem],
    [reset], an assignment to [fuzzyval], and the two helpers [_snap_in]
    and [_get_new_item] on their own. *)
Theorem cursor_stays_valid (items : option (list Z)) (default : option Z)
    (mode : Modes) (s0 s : NeighborList) (c : call) (offset : Z)
    (Hinit : __init__ items default mode = Return s0)
    (Hvalid : cursor_valid s) :
  cursor_valid s0 /\
  cursor_valid (exec c s) /\
  cursor_valid (snd (_snap_in offset s)) /\
  cursor_valid (snd (_get_new_item offset s)).
Proof.
  split; [exact (init_cursor_valid _ _ _ _ Hinit)|].
  split; [exact (proj1 (exec_keeps c s Hvalid))|].
  split; [exact (proj1 (snap_in_keeps offset s Hvalid))|].
  exact (proj1 (get_new_item_keeps offset s Hvalid)).
Qed.

Lemma cursor_stays_valid_witness :
  cursor_valid (odd_levels (Some 7) (Some 3) wrap None) /\
  cursor_valid (exec call_nextitem (odd_levels None (Some 3) wrap (Some 6))) /\
  cursor_valid (snd (_snap_in (-2) (odd_levels None (Some 3) wrap (Some 6)))) /\
  cursor_valid (snd (_get_new_item (-2) (odd_levels None (Some 3) wrap (Some 6)))).
Proof.
  apply (cursor_stays_valid (Some [1; 3; 5; 7]) (Some 7) wrap
           (odd_levels (Some 7) (Some 3) wrap None)
           (odd_levels None (Some 3) wrap (Some 6)) call_nextitem (-2)).
  - reflexivity.
  - unfold cursor_valid. cbn. unfold len. cbn. lia.
Defined.

(** C9: on a non-empty list with a fuzzy value above every item and a
    positive offset, or below every item and a negative offset, no item
    passes the comparison, [min] gets an empty list and [getitem] fails
    with a ValueError that is none of the specification's error kinds;
    the cursor is unchanged and the fuzzy value is still set. *)
Theorem snap_without_candidate (s : NeighborList) (f offset : Z) :
  _items s <> [] -> fuzzyval s = Some f ->
  (0 < offset /\ Forall (fun e => e < f) (_items s)) \/
  (offset < 0 /\ Forall (fun e => f < e) (_items s)) ->
  candidates offset (_items s) f = [] /\
  getitem offset s = (Raise ValueError_min_empty, s) /\
  error_kind ValueError_min_empty = None /\
  idx (snd (getitem offset s)) = idx s /\
  fuzzyval (snd (getitem offset s)) = Some f.
Proof.
  intros Hne Hf Hcase.
  assert (Hc : candidates offset (_items s) f = []).
  { unfold candidates, enumerate.
    apply (filter_enumerate_none
             (fun e => (if offset <? 0 then Z.leb else Z.geb) e f)).
    destruct Hcase as [[Ho Hall] | [Ho Hall]].
    - replace (offset <? 0) with false by (symmetry; apply Z.ltb_ge; lia).
      eapply Forall_impl; [|exact Hall]. cbn. intros e He.
      rewrite Z.geb_leb. apply Z.leb_gt. exact He.
    - replace (offset <? 0) with true by (symmetry; apply Z.ltb_lt; lia).
      eapply Forall_impl; [|exact Hall]. cbn. intros e He.
      apply Z.leb_gt. exact He. }
  assert (Hg : getitem offset s = (Raise ValueError_min_empty, s)).
  { rewrite (getitem_fuzzy offset s f), (snap_in_unfold offset s f)
      by assumption.
    unfold close_item. rewrite Hc. reflexivity. }
  rewrite Hg. repeat split; assumption.
Qed.

Lemma snap_without_candidate_witness :
  candidates 1 [1; 3; 5; 7] 9 = [] /\
  getitem 1 (odd_levels None (Some 2) wrap (Some 9))
    = (Raise ValueError_min_empty, odd_levels None (Some 2) wrap (Some 9)) /\
  error_kind ValueError_min_empty = None /\
  idx (snd (getitem 1 (odd_levels None (Some 2) wrap (Some 9)))) = Some 2 /\
  fuzzyval (snd (getitem 1 (odd_levels None (Some 2) wrap (Some 9)))) = Some 9.
Proof.
  apply (snap_without_candidate (odd_levels None (Some 2) wrap (Some 9)) 9 1).
  - discriminate.
  - reflexivity.
  - left. split; [lia|]. repeat constructor.
Defined.

(** C10: a failing step is not atomic when a fuzzy value is pending.  In
    [exception] mode, if [_snap_in] returns and the remaining offset,
    applied from the snap target, leaves the list, [getitem] fails with
    IndexOutOfRange but the object has changed: the cursor is on the snap
    target and the fuzzy value is cleared. *)
Theorem failed_step_keeps_snap (s s1 : NeighborList) (f offset i : Z)
    (snapped : bool) :
  _items s <> [] -> _mode s = exception -> fuzzyval s = Some f ->
  _snap_in offset s = (Return snapped, s1) -> idx s1 = Some i ->
  ~ 0 <= i + remaining snapped offset < len (_items s) ->
  exists e,
    getitem offset s = (Raise e, with_fuzzyval None (with_idx (Some i) s)) /\
    error_kind e = Some IndexOutOfRange /\
    s1 = with_idx (Some i) s /\
    snd (getitem offset s) <> s.
Proof.
  intros Hne Hm Hf Hsnap Hi Hout.
  destruct (snap_in_cases offset s) as [[e He] | (b & j & Hj & Hs)];
    [congruence|].
  rewrite Hsnap in Hs. injection Hs as <- ->. cbn [idx with_idx] in Hi.
  injection Hi as ->.
  exists (border_error (i + remaining snapped offset)).
  assert (Hg : getitem offset s
               = (Raise (border_error (i + remaining snapped offset)),
                  with_fuzzyval None (with_idx (Some i) s))).
  { rewrite (getitem_fuzzy offset s f), Hsnap by assumption.
    rewrite (get_new_item_outside _ _ i) by (auto; exact Hout).
    cbn [_mode with_fuzzyval with_idx]. now rewrite Hm. }
  split; [exact Hg|]. split; [|split; [reflexivity|]].
  - unfold border_error. now destruct (0 <=? _).
  - rewrite Hg. cbn [snd]. intros Heq.
    apply (f_equal fuzzyval) in Heq. cbn in Heq. congruence.
Qed.

Lemma failed_step_keeps_snap_witness :
  exists e,
    getitem 1 (odd_levels None (Some 0) exception (Some 7))
      = (Raise e, odd_levels None (Some 3) exception None) /\
    error_kind e = Some IndexOutOfRange /\
    odd_levels None (Some 3) exception (Some 7)
      = odd_levels None (Some 3) exception (Some 7) /\
    snd (getitem 1 (odd_levels None (Some 0) exception (Some 7)))
      <> odd_levels None (Some 0) exception (Some 7).
Proof.
  apply (failed_step_keeps_snap
           (odd_levels None (Some 0) exception (Some 7))
           (odd_levels None (Some 3) exception (Some 7)) 7 1 3 false).
  - discriminate.
  - reflexivity.
  - reflexivity.
  - reflexivity.
  - reflexivity.
  - unfold remaining, len. cbn. lia.
Defined.

(** * Further properties of the class *)

(** ** Stepping without a fuzzy value *)

Lemma getitem_valid offset s i :
  fuzzyval s = None -> idx s = Some i -> 0 <= i < len (_items s) ->
  getitem offset s
  = if (0 <=? i + offset) && (i + offset <? len (_items s))
    then (Return (item_at s (i + offset)), with_idx (Some (i + offset)) s)
    else match _mode s with
         | block => (Return (item_at s i), s)
         | wrap =>
             let j := (i + offset) mod len (_items s) in
             (Return (item_at s j), with_idx (Some j) s)
         | exception => (Raise (border_error (i + offset)), s)
         end.
Proof.
  intros Hf Hi Hr.
  assert (Hne : _items s <> []).
  { intros E. rewrite E in Hr. unfold len in Hr. cbn in Hr. lia. }
  rewrite getitem_plain by assumption.
  destruct (Z.leb_spec 0 (i + offset)) as [Hlo|Hlo];
    destruct (Z.ltb_spec (i + offset) (len (_items s))) as [Hhi|Hhi];
    cbn [andb].
  - apply get_new_item_inside; [assumption | lia].
  - apply get_new_item_outside; [assumption | lia | lia].
  - apply get_new_item_outside; [assumption | lia | lia].
  - apply get_new_item_outside; [assumption | lia | lia].
Qed.

Lemma getitem_wrap offset s i :
  _mode s = wrap -> fuzzyval s = None ->
  idx s = Some i -> 0 <= i < len (_items s) ->
  let j := (i + offset) mod len (_items s) in
  getitem offset s = (Return (item_at s j), with_idx (Some j) s).
Proof.
  intros Hm Hf Hi Hr. rewrite (getitem_valid offset s i) by assumption.
  destruct (Z.leb_spec 0 (i + offset)) as [Hlo|Hlo];
    destruct (Z.ltb_spec (i + offset) (len (_items s))) as [Hhi|Hhi];
    cbn [andb]; rewrite ?Hm; try reflexivity.
  cbv zeta. now rewrite Z.mod_small by lia.
Qed.

(** X1: in [wrap] mode, from a valid cursor and with no fuzzy value,
    [getitem(a)] always returns: it puts the cursor on [(idx + a) mod
    len] and returns that item.  Two steps [getitem(a)], [getitem(b)] in
    a row give the result and the object of the single step
    [getitem(a + b)]. *)
Theorem wrap_steps_compose (s : NeighborList) (i a b : Z) :
  _mode s = wrap -> fuzzyval s = None ->
  idx s = Some i -> 0 <= i < len (_items s) ->
  getitem a s
    = (Return (item_at s ((i + a) mod len (_items s))),
       with_idx (Some ((i + a) mod len (_items s))) s) /\
  (getitem a ;; getitem b) s = getitem (a + b) s.
Proof.
  intros Hm Hf Hi Hr.
  pose proof (getitem_wrap a s i Hm Hf Hi Hr) as Ha. cbv zeta in Ha.
  split; [exact Ha|].
  unfold bind. rewrite Ha.
  set (n := len (_items s)) in *. set (j := (i + a) mod n).
  assert (Hj : 0 <= j < n) by (apply Z.mod_pos_bound; lia).
  rewrite (getitem_wrap b (with_idx (Some j) s) j) by (auto; exact Hj).
  rewrite (getitem_wrap (a + b) s i) by assumption.
  cbv zeta. cbn [_items with_idx]. fold n.
  replace ((j + b) mod n) with ((i + (a + b)) mod n); [reflexivity|].
  unfold j. rewrite Z.add_mod_idemp_l by lia. f_equal. lia.
Qed.

Lemma wrap_steps_compose_witness :
  getitem 6 (odd_levels None (Some 1) wrap None)
    = (Return 7, odd_levels None (Some 3) wrap None) /\
  (getitem 6 ;; getitem (-9)) (odd_levels None (Some 1) wrap None)
    = getitem (-3) (odd_levels None (Some 1) wrap None).
Proof.
  apply (wrap_steps_compose (odd_levels None (Some 1) wrap None) 1 6 (-9));
    try reflexivity. unfold len. cbn. lia.
Defined.

(** X2: in every mode, from a valid cursor and with no fuzzy value, a
    step that stays inside the list followed by the opposite step returns
    the item the cursor started on and leaves the object as it was. *)
Theorem step_there_and_back (s : NeighborList) (i offset : Z) :
  fuzzyval s = None -> idx s = Some i -> 0 <= i < len (_items s) ->
  0 <= i + offset < len (_items s) ->
  (getitem offset ;; getitem (- offset)) s = (Return (item_at s i), s).
Proof.
  intros Hf Hi Hr Ht. unfold bind.
  rewrite (getitem_valid offset s i) by assumption.
  replace ((0 <=? i + offset) && (i + offset <? len (_items s))) with true
    by (symmetry; apply andb_true_iff; split;
        [apply Z.leb_le | apply Z.ltb_lt]; lia).
  rewrite (getitem_valid (- offset) (with_idx (Some (i + offset)) s)
             (i + offset)) by (auto; exact Ht).
  cbn [_items with_idx].
  replace (i + offset + - offset) with i by lia.
  replace ((0 <=? i) && (i <? len (_items s))) with true
    by (symmetry; apply andb_true_iff; split;
        [apply Z.leb_le | apply Z.ltb_lt]; lia).
  clear Hr Ht. open_obj s. reflexivity.
Qed.

Lemma step_there_and_back_witness :
  (getitem 2 ;; getitem (- 2)) (odd_levels None (Some 1) exception None)
    = (Return 3, odd_levels None (Some 1) exception None).
Proof.
  apply (step_there_and_back (odd_levels None (Some 1) exception None) 1 2);
    try reflexivity; unfold len; cbn; lia.
Defined.

(** X3: in [block] mode, from a valid cursor and with no fuzzy value,
    [getitem] never raises.  A step whose target is inside the list moves
    there; any other step does not move at all (it does not go to the
    nearest end) and returns the current item. *)
Theorem block_step (s : NeighborList) (i offset : Z) :
  _mode s = block -> fuzzyval s = None ->
  idx s = Some i -> 0 <= i < len (_items s) ->
  getitem offset s
  = if (0 <=? i + offset) && (i + offset <? len (_items s))
    then (Return (item_at s (i + offset)), with_idx (Some (i + offset)) s)
    else (Return (item_at s i), s).
Proof.
  intros Hm Hf Hi Hr. rewrite (getitem_valid offset s i) by assumption.
  now rewrite Hm.
Qed.

Lemma block_step_witness :
  getitem 5 (odd_levels None (Some 1) block None)
    = (Return 3, odd_levels None (Some 1) block None).
Proof.
  apply (block_step (odd_levels None (Some 1) block None) 1 5);
    try reflexivity. unfold len. cbn. lia.
Defined.

(** X4: in [exception] mode, from a valid cursor and with no fuzzy
    value, [getitem] raises exactly when the target index is outside the
    list, at either end and for any offset; the error is an IndexError of
    kind IndexOutOfRange and no attribute is written.  Otherwise the
    cursor moves to the target and its item is returned. *)
Theorem exception_step (s : NeighborList) (i offset : Z) :
  _mode s = exception -> fuzzyval s = None ->
  idx s = Some i -> 0 <= i < len (_items s) ->
  getitem offset s
  = (if (0 <=? i + offset) && (i + offset <? len (_items s))
     then (Return (item_at s (i + offset)), with_idx (Some (i + offset)) s)
     else (Raise (border_error (i + offset)), s)) /\
  error_kind (border_error (i + offset)) = Some IndexOutOfRange /\
  class_of (border_error (i + offset)) = IndexError.
Proof.
  intros Hm Hf Hi Hr. rewrite (getitem_valid offset s i) by assumption.
  rewrite Hm. unfold border_error.
  repeat split; now destruct (0 <=? i + offset).
Qed.

Lemma exception_step_witness :
  getitem 3 (odd_levels None (Some 1) exception None)
    = (Raise IndexError_list_range, odd_levels None (Some 1) exception None) /\
  error_kind IndexError_list_range = Some IndexOutOfRange /\
  class_of IndexError_list_range = IndexError.
Proof.
  apply (exception_step (odd_levels None (Some 1) exception None) 1 3);
    try reflexivity. unfold len. cbn. lia.
Defined.

(** ** Construction and direct access *)

Lemma index_from_contains l : forall k x,
  index_from k l x = None <-> contains l x = false.
Proof.
  induction l as [|y r IH]; intros k x; cbn; [tauto|].
  destruct (y =? x); cbn; [split; discriminate | apply IH].
Qed.

Lemma index_from_first l : forall k x j,
  index_from k l x = Some j ->
  forall m, (m < Z.to_nat (j - k))%nat -> nth_error l m <> Some x.
Proof.
  induction l as [|y r IH]; intros k x j; cbn; [discriminate|].
  destruct (Z.eqb_spec y x) as [->|Hyx]; intros H m Hm.
  - injection H as <-. rewrite Z.sub_diag in Hm. cbn in Hm. lia.
  - pose proof (index_from_spec _ _ _ _ H) as [Hj _].
    destruct m as [|m]; cbn; [congruence|].
    apply (IH _ _ _ H). lia.
Qed.

Lemma list_getitem_spec l k :
  list_getitem l k
  = if (- len l <=? k) && (k <? len l)
    then Return (nth (Z.to_nat (k mod len l)) l 0)
    else Raise IndexError_list_range.
Proof.
  pose proof (len_nonneg l) as Hn.
  destruct (Z.leb_spec (- len l) k) as [Hlo|Hlo];
    destruct (Z.ltb_spec k (len l)) as [Hhi|Hhi]; cbn [andb].
  - destruct (Z.lt_ge_cases k 0) as [Hneg|Hpos].
    + replace (k mod len l) with (k + len l).
      * rewrite <- (list_getitem_inside l (k + len l)) by lia.
        unfold list_getitem. cbv zeta.
        assert (E1 : (k <? 0) = true) by (apply Z.ltb_lt; lia).
        assert (E2 : (k + len l <? 0) = false) by (apply Z.ltb_ge; lia).
        rewrite ?E1, ?E2; cbv iota; rewrite ?E1, ?E2; reflexivity.
      * apply (Z.mod_unique_pos _ _ (-1)); lia.
    + rewrite Z.mod_small by lia. apply list_getitem_inside. lia.
  - now apply list_getitem_beyond.
  - unfold list_getitem. cbv zeta.
    assert (E1 : (k <? 0) = true) by (apply Z.ltb_lt; lia).
    assert (E2 : (k + len l <? 0) = true) by (apply Z.ltb_lt; lia).
    rewrite ?E1, ?E2; cbv iota; rewrite ?E1, ?E2; reflexivity.
  - lia.
Qed.

(** X5: [__init__] with a default succeeds exactly when the default is
    in the list.  It then puts the cursor on the first position holding
    the default, so that [curitem()] returns the default, and leaves no
    fuzzy value; otherwise it raises the ValueError of [list.index] and
    no object is built.  With [items=None] the list is empty. *)
Theorem init_with_default (items : option (list Z)) (d : Z) (mode : Modes) :
  let l := match items with None => [] | Some l => l end in
  if contains l d
  then exists i,
         let s := mkNeighborList l (Some d) (Some i) mode None in
         __init__ items (Some d) mode = Return s /\
         0 <= i < len l /\
         list_getitem l i = Return d /\
         (forall q, 0 <= q < i -> list_getitem l q <> Return d) /\
         curitem s = (Return d, s)
  else __init__ items (Some d) mode = Raise (ValueError_not_in_list d).
Proof.
  intros l. unfold __init__. fold l. unfold list_index.
  destruct (index_from 0 l d) as [i|] eqn:Hi.
  - assert (Hc : contains l d = true).
    { destruct (contains l d) eqn:E; [reflexivity|].
      apply (index_from_contains l 0 d) in E. congruence. }
    rewrite Hc. exists i. cbv zeta.
    assert (Hidx : list_index l d = Return i) by (unfold list_index; now rewrite Hi).
    destruct (list_index_getitem _ _ _ Hidx) as [Hr Hg].
    split; [reflexivity|]. split; [exact Hr|]. split; [exact Hg|]. split.
    + intros q Hq Hgq. rewrite list_getitem_inside in Hgq by lia.
      injection Hgq as Hnth.
      apply (index_from_first _ _ _ _ Hi (Z.to_nat q)); [lia|].
      rewrite <- Hnth. apply nth_error_nth'. unfold len in Hr. lia.
    + unfold curitem. run_py. now rewrite Hg.
  - apply (index_from_contains l 0 d) in Hi. now rewrite Hi.
Qed.

(** X6: a non-empty list built without a default has no cursor, and
    until one is set [getitem], whatever the offset and the mode, raises
    a TypeError (from [None + offset]), which is none of the IndexError
    cases, and writes nothing; [curitem()] raises IndexError("No current
    item!"). *)
Theorem step_unpositioned (items : option (list Z)) (mode : Modes)
    (s : NeighborList) (offset : Z) :
  __init__ items None mode = Return s -> _items s <> [] ->
  getitem offset s = (Raise TypeError_NoneType, s) /\
  class_of TypeError_NoneType <> IndexError /\
  error_kind TypeError_NoneType = None /\
  curitem s = (Raise IndexError_no_current, s).
Proof.
  intros Hinit Hne. cbn in Hinit. injection Hinit as <-.
  cbn [_items] in Hne. split; [|split; [discriminate | split; reflexivity]].
  rewrite getitem_plain by (cbn; auto).
  now apply get_new_item_None.
Qed.

Lemma step_unpositioned_witness :
  getitem (-1) (odd_levels None None block None)
    = (Raise TypeError_NoneType, odd_levels None None block None) /\
  class_of TypeError_NoneType <> IndexError /\
  error_kind TypeError_NoneType = None /\
  curitem (odd_levels None None block None)
    = (Raise IndexError_no_current, odd_levels None None block None).
Proof.
  apply (step_unpositioned (Some [1; 3; 5; 7]) block
           (odd_levels None None block None) (-1));
    [reflexivity | discriminate].
Defined.

Lemma getitem_key (s : NeighborList) (key : Z) :
  __getitem__ key s
  = (if (- len (_items s) <=? key) && (key <? len (_items s))
     then Return (item_at s (key mod len (_items s)))
     else Raise IndexError_list_range,
     s).
Proof.
  unfold __getitem__. run_py. now rewrite list_getitem_spec.
Qed.

(** X7: [self[key]] for an integer key returns the item at [key] for
    [0 <= key < len], the item at [key + len] for [-len <= key < 0], and
    raises IndexError for every other key; it never writes an
    attribute. *)
Theorem subscript_spec (s : NeighborList) (key : Z) :
  __getitem__ key s
  = (if (- len (_items s) <=? key) && (key <? len (_items s))
     then Return (item_at s (key mod len (_items s)))
     else Raise IndexError_list_range,
     s).
Proof. apply getitem_key. Qed.

(** X8: on a non-empty list [firstitem()] returns what [self[0]]
    returns and puts the cursor on 0; [lastitem()] returns what
    [self[-1]] returns and puts the cursor on [len - 1]; both leave a
    pending fuzzy value in place. *)
Theorem first_last_items (s : NeighborList) :
  _items s <> [] ->
  exists a z,
    __getitem__ 0 s = (Return a, s) /\
    firstitem s = (Return a, with_idx (Some 0) s) /\
    __getitem__ (-1) s = (Return z, s) /\
    lastitem s = (Return z, with_idx (Some (len (_items s) - 1)) s) /\
    fuzzyval (snd (firstitem s)) = fuzzyval s /\
    fuzzyval (snd (lastitem s)) = fuzzyval s.
Proof.
  intros Hne. pose proof (len_pos _ Hne) as Hlen.
  exists (item_at s 0), (item_at s (len (_items s) - 1)).
  rewrite !getitem_key, firstitem_nonempty, lastitem_nonempty by assumption.
  replace (- len (_items s) <=? 0) with true by (symmetry; apply Z.leb_le; lia).
  replace (0 <? len (_items s)) with true by (symmetry; apply Z.ltb_lt; lia).
  replace (- len (_items s) <=? -1) with true by (symmetry; apply Z.leb_le; lia).
  replace (-1 <? len (_items s)) with true by (symmetry; apply Z.ltb_lt; lia).
  cbn [andb]. rewrite Z.mod_0_l by lia.
  replace (-1 mod len (_items s)) with (len (_items s) - 1)
    by (apply (Z.mod_unique_pos _ _ (-1)); lia).
  repeat split.
Qed.

Lemma first_last_items_witness :
  exists a z,
    __getitem__ 0 (odd_levels None (Some 2) wrap (Some 4))
      = (Return a, odd_levels None (Some 2) wrap (Some 4)) /\
    firstitem (odd_levels None (Some 2) wrap (Some 4))
      = (Return a, odd_levels None (Some 0) wrap (Some 4)) /\
    __getitem__ (-1) (odd_levels None (Some 2) wrap (Some 4))
      = (Return z, odd_levels None (Some 2) wrap (Some 4)) /\
    lastitem (odd_levels None (Some 2) wrap (Some 4))
      = (Return z, odd_levels None (Some 3) wrap (Some 4)) /\
    fuzzyval (snd (firstitem (odd_levels None (Some 2) wrap (Some 4))))
      = Some 4 /\
    fuzzyval (snd (lastitem (odd_levels None (Some 2) wrap (Some 4))))
      = Some 4.
Proof.
  apply (first_last_items (odd_levels None (Some 2) wrap (Some 4))).
  discriminate.
Defined.

(** X9: the list, the default and the mode given to [__init__] are never
    changed afterwards: after any sequence of method calls and
    assignments to [fuzzyval], returning or raising, [_items], [_default]
    and [_mode] are what the constructor stored and [len(self)] is the
    length of the constructor's list. *)
Theorem config_fixed (items : option (list Z)) (default : option Z)
    (mode : Modes) (s0 : NeighborList) (cs : list call) :
  __init__ items default mode = Return s0 ->
  let l := match items with None => [] | Some l => l end in
  let s := exec_all cs s0 in
  _items s = l /\ _default s = default /\ _mode s = mode /\
  __len__ s = (Return (len l), s).
Proof.
  intros Hinit l s.
  destruct (exec_all_keeps cs s0 (init_cursor_valid _ _ _ _ Hinit))
    as [_ (Hit & Hd & Hm)].
  fold s in Hit, Hd, Hm.
  assert (H0 : _items s0 = l /\ _default s0 = default /\ _mode s0 = mode).
  { unfold __init__ in Hinit. fold l in Hinit. destruct default as [d|].
    - destruct (list_index l d); [|discriminate].
      injection Hinit as <-. now cbn.
    - injection Hinit as <-. now cbn. }
  destruct H0 as (H1 & H2 & H3).
  assert (E : _items s = l) by congruence.
  split; [exact E|]. split; [congruence|]. split; [congruence|].
  unfold __len__. run_py. now rewrite E.
Qed.

Lemma config_fixed_witness :
  let s := exec_all [call_lastitem; assign_fuzzyval (Some 2); call_previtem]
                    (odd_levels (Some 5) (Some 2) wrap None) in
  _items s = [1; 3; 5; 7] /\ _default s = Some 5 /\ _mode s = wrap /\
  __len__ s = (Return 4, s).
Proof.
  apply (config_fixed (Some [1; 3; 5; 7]) (Some 5) wrap
           (odd_levels (Some 5) (Some 2) wrap None)
           [call_lastitem; assign_fuzzyval (Some 2); call_previtem]).
  reflexivity.
Defined.

(** ** Where the snap lands *)

Lemma min_scan_split {A} (key : A -> Z) l : forall best,
  let m := min_scan key best l in
  (m = best /\ forall y, In y l -> key best <= key y) \/
  (key m < key best /\
   exists l1 l2, l = l1 ++ m :: l2 /\
     (forall y, In y l1 -> key m < key y) /\
     (forall y, In y l2 -> key m <= key y)).
Proof.
  induction l as [|x r IH]; intros best; cbn.
  - left. split; [reflexivity | tauto].
  - destruct (Z.ltb_spec (key x) (key best)) as [Hlt|Hge].
    + right. destruct (IH x) as [[Hm Hall] | (Hm & l1 & l2 & Hr & H1 & H2)].
      * rewrite Hm. split; [exact Hlt|]. exists [], r. cbn.
        split; [reflexivity|]. split; [tauto | exact Hall].
      * split; [lia|]. exists (x :: l1), l2. split; [cbn; now f_equal|].
        split; [|exact H2]. intros y [<-|Hy]; [exact Hm | now apply H1].
    + destruct (IH best) as [[Hm Hall] | (Hm & l1 & l2 & Hr & H1 & H2)].
      * left. split; [exact Hm|]. intros y [<-|Hy]; [exact Hge | now apply Hall].
      * right. split; [exact Hm|]. exists (x :: l1), l2.
        split; [cbn; now f_equal|]. split; [|exact H2].
        intros y [<-|Hy]; [lia | now apply H1].
Qed.

Lemma py_min_split {A} (key : A -> Z) l m :
  py_min key l = Return m ->
  exists l1 l2, l = l1 ++ m :: l2 /\
    (forall y, In y l1 -> key m < key y) /\
    (forall y, In y l2 -> key m <= key y).
Proof.
  destruct l as [|x r]; unfold py_min; [discriminate|].
  intros H; injection H as <-.
  destruct (min_scan_split key r x) as [[Hm Hall] | (Hm & l1 & l2 & Hr & H1 & H2)].
  - rewrite Hm. exists [], r. cbn. split; [reflexivity|]. split; [tauto | exact Hall].
  - exists (x :: l1), l2. split; [cbn; now f_equal|]. split; [|exact H2].
    intros y [<-|Hy]; [exact Hm | now apply H1].
Qed.

Lemma enumerate_from_In l : forall k0 k e,
  In (k, e) (enumerate_from k0 l) <->
  k0 <= k /\ nth_error l (Z.to_nat (k - k0)) = Some e.
Proof.
  induction l as [|x r IH]; intros k0 k e; cbn.
  - split; [tauto|]. intros [_ H]. now destruct (Z.to_nat (k - k0)).
  - rewrite IH. split.
    + intros [H | [Hk Hn]].
      * injection H as <- <-. rewrite Z.sub_diag. cbn. split; [lia | reflexivity].
      * split; [lia|].
        replace (Z.to_nat (k - k0)) with (S (Z.to_nat (k - (k0 + 1)))) by lia.
        exact Hn.
    + intros [Hk Hn]. destruct (Z.eq_dec k k0) as [->|Hne].
      * left. rewrite Z.sub_diag in Hn. cbn in Hn. congruence.
      * right. split; [lia|].
        replace (Z.to_nat (k - k0)) with (S (Z.to_nat (k - (k0 + 1)))) in Hn by lia.
        exact Hn.
Qed.

Lemma filter_enumerate_split (p : Z * Z -> bool) l : forall k0 l1 c l2,
  filter p (enumerate_from k0 l) = l1 ++ c :: l2 ->
  (forall q, In q l1 -> fst q < fst c) /\ (forall q, In q l2 -> fst c < fst q).
Proof.
  induction l as [|x r IH]; intros k0 l1 c l2; cbn.
  - intros H. now destruct l1.
  - assert (Hlow : forall q, In q (filter p (enumerate_from (k0 + 1) r)) ->
                             k0 < fst q).
    { intros q Hq. apply filter_In in Hq as [Hq _].
      apply enumerate_from_index in Hq. lia. }
    destruct (p (k0, x)); [|apply IH].
    destruct l1 as [|a l1]; cbn; intros H; injection H as Ha Hr.
    + subst c. split; [tauto|]. intros q Hq. cbn. apply Hlow. now rewrite Hr.
    + subst a. destruct (IH _ _ _ _ Hr) as [H1 H2]. split; [|exact H2].
      intros q [<-|Hq]; [|now apply H1]. cbn. apply Hlow. rewrite Hr.
      apply in_or_app. right. now left.
Qed.

Lemma list_index_first l x i :
  nth_error l (Z.to_nat i) = Some x -> 0 <= i ->
  (forall j, 0 <= j < i -> nth_error l (Z.to_nat j) <> Some x) ->
  list_index l x = Return i.
Proof.
  intros Hn Hi Hfirst. unfold list_index.
  destruct (index_from 0 l x) as [j|] eqn:Hj.
  - f_equal. pose proof (index_from_spec _ _ _ _ Hj) as [Hr Hnj].
    rewrite Z.sub_0_r in Hnj.
    destruct (Z.lt_trichotomy j i) as [Hlt | [Heq | Hgt]]; [|exact Heq|].
    + exfalso. apply (Hfirst j); [lia | exact Hnj].
    + exfalso. apply (index_from_first _ _ _ _ Hj (Z.to_nat i)); [lia | exact Hn].
  - exfalso. apply (index_from_contains l 0 x) in Hj.
    unfold contains in Hj.
    assert (Hex : existsb (fun y => y =? x) l = true).
    { apply existsb_exists. exists x. split; [|apply Z.eqb_refl].
      eapply nth_error_In. exact Hn. }
    congruence.
Qed.

Lemma close_item_spec offset l f i e :
  close_item offset l f = Return (i, e) ->
  list_index l e = Return i /\
  toward offset e f /\
  (forall e', In e' l -> toward offset e' f ->
              Z.abs (f - e) <= Z.abs (f - e')).
Proof.
  unfold close_item. intros H.
  pose proof (py_min_In _ _ _ H) as Hin.
  apply py_min_split in H as (l1 & l2 & Hsplit & H1 & H2).
  unfold candidates, enumerate in *.
  pose proof (filter_enumerate_split _ _ _ _ _ _ Hsplit) as [Hbefore Hafter].
  apply filter_In in Hin as [Hen Hop]. cbn [snd] in Hop.
  apply enumerate_from_In in Hen as [Hi0 Hnth]. rewrite Z.sub_0_r in Hnth.
  assert (Hcand : forall k e', 0 <= k ->
            nth_error l (Z.to_nat k) = Some e' ->
            (if offset <? 0 then Z.leb else Z.geb) e' f = true ->
            In (k, e') (l1 ++ (i, e) :: l2)).
  { intros k e' Hk Hn Hp. rewrite <- Hsplit. apply filter_In. split; [|exact Hp].
    apply enumerate_from_In. rewrite Z.sub_0_r. now split. }
  assert (Hdir : forall e', (if offset <? 0 then Z.leb else Z.geb) e' f = true
                            <-> toward offset e' f).
  { intros e'. unfold toward. destruct (offset <? 0).
    - apply Z.leb_le.
    - rewrite Z.geb_leb. apply Z.leb_le. }
  split; [|split].
  - apply list_index_first; [exact Hnth | exact Hi0 |].
    intros j Hj Hnj.
    specialize (Hcand j e (proj1 Hj) Hnj Hop).
    apply in_app_or in Hcand as [Hc | [Hc | Hc]].
    + apply H1 in Hc. cbn in Hc. lia.
    + injection Hc as Hc. lia.
    + apply Hafter in Hc. cbn in Hc. lia.
  - now apply Hdir.
  - intros e' He' Ht. apply In_nth_error in He' as [n Hn].
    assert (Hc : In (Z.of_nat n, e') (l1 ++ (i, e) :: l2)).
    { apply Hcand; [lia | now rewrite Nat2Z.id | now apply Hdir]. }
    apply in_app_or in Hc as [Hc | [Hc | Hc]].
    + apply H1 in Hc. cbn in Hc. lia.
    + injection Hc as _ <-. lia.
    + apply H2 in Hc. cbn in Hc. exact Hc.
Qed.

Lemma close_item_exists offset l f e0 :
  In e0 l -> toward offset e0 f ->
  exists c, close_item offset l f = Return c.
Proof.
  intros Hin Ht. unfold close_item.
  destruct (candidates offset l f) as [|c r] eqn:Hc.
  - exfalso. apply In_nth_error in Hin as [n Hn].
    assert (H : In (Z.of_nat n, e0) (candidates offset l f)).
    { unfold candidates, enumerate. apply filter_In. split.
      - apply enumerate_from_In. rewrite Z.sub_0_r, Nat2Z.id. split; [lia | exact Hn].
      - cbn. unfold toward in Ht. destruct (offset <? 0).
        + now apply Z.leb_le.
        + rewrite Z.geb_leb. now apply Z.leb_le. }
    now rewrite Hc in H.
  - eexists. reflexivity.
Qed.

(** X10: when [_snap_in] returns, the cursor is on an item on the right
    side of the fuzzy value ([<=] it for a negative offset, [>=] it
    otherwise) that is at least as near to it as every other item on
    that side, and on the first position holding that item; the returned
    flag tells whether the fuzzy value is absent from the list. *)
Theorem snap_target_nearest (s s1 : NeighborList) (f offset : Z) (b : bool) :
  _items s <> [] -> fuzzyval s = Some f ->
  _snap_in offset s = (Return b, s1) ->
  exists i e,
    s1 = with_idx (Some i) s /\
    list_index (_items s) e = Return i /\
    toward offset e f /\
    (forall e', In e' (_items s) -> toward offset e' f ->
                Z.abs (f - e) <= Z.abs (f - e')) /\
    b = negb (contains (_items s) f).
Proof.
  intros Hne Hf Hsnap. rewrite (snap_in_unfold offset s f) in Hsnap by assumption.
  destruct (close_item offset (_items s) f) as [[i e]|err] eqn:Hc; [|discriminate].
  injection Hsnap as <- <-. exists i, e.
  destruct (close_item_spec _ _ _ _ _ Hc) as (Hidx & Ht & Hnear).
  repeat split; assumption.
Qed.

Lemma snap_target_nearest_witness :
  exists i e,
    odd_levels None (Some 2) wrap (Some 6)
      = with_idx (Some i) (odd_levels None (Some 0) wrap (Some 6)) /\
    list_index [1; 3; 5; 7] e = Return i /\
    toward (-1) e 6 /\
    (forall e', In e' [1; 3; 5; 7] -> toward (-1) e' 6 ->
                Z.abs (6 - e) <= Z.abs (6 - e')) /\
    true = negb (contains [1; 3; 5; 7] 6).
Proof.
  apply (snap_target_nearest (odd_levels None (Some 0) wrap (Some 6))
           (odd_levels None (Some 2) wrap (Some 6)) 6 (-1) true);
    [discriminate | reflexivity | reflexivity].
Defined.

(** ** Stepping with a fuzzy value *)

Lemma getitem_snapped offset s f i e :
  _items s <> [] -> fuzzyval s = Some f ->
  close_item offset (_items s) f = Return (i, e) ->
  getitem offset s
  = _get_new_item (remaining (negb (contains (_items s) f)) offset)
                  (with_fuzzyval None (with_idx (Some i) s)).
Proof.
  intros Hne Hf Hc.
  rewrite (getitem_fuzzy offset s f), (snap_in_unfold offset s f) by assumption.
  now rewrite Hc.
Qed.

Lemma getitem_onto_snap offset s f i e :
  _items s <> [] -> fuzzyval s = Some f ->
  contains (_items s) f = false ->
  close_item offset (_items s) f = Return (i, e) ->
  remaining true offset = 0 ->
  getitem offset s = (Return e, with_fuzzyval None (with_idx (Some i) s)).
Proof.
  intros Hne Hf Hnotin Hc Hrem.
  rewrite (getitem_snapped offset s f i e) by assumption.
  rewrite Hnotin. cbn [negb]. rewrite Hrem.
  destruct (close_item_spec _ _ _ _ _ Hc) as (Hidx & _ & _).
  apply list_index_getitem in Hidx as [Hr Hg].
  rewrite (get_new_item_inside 0 _ i) by (cbn; auto; lia).
  rewrite Z.add_0_r. unfold item_at. cbn [_items with_fuzzyval with_idx].
  rewrite list_getitem_inside in Hg by lia. injection Hg as ->.
  reflexivity.
Qed.

(** X11: with a pending fuzzy value that is not in the list and at least
    one item above it, [nextitem()] returns, in every mode and whatever
    the cursor was: it gives the smallest item above the fuzzy value,
    puts the cursor on the first position holding it and clears the
    fuzzy value. *)
Theorem next_after_fuzzy (s : NeighborList) (f e0 : Z) :
  fuzzyval s = Some f -> contains (_items s) f = false ->
  In e0 (_items s) -> f < e0 ->
  exists i e,
    nextitem s = (Return e, with_fuzzyval None (with_idx (Some i) s)) /\
    list_index (_items s) e = Return i /\
    f < e /\
    (forall e', In e' (_items s) -> f < e' -> e <= e').
Proof.
  intros Hf Hnotin Hin Hlt.
  assert (Hne : _items s <> []) by (intros E; rewrite E in Hin; exact Hin).
  destruct (close_item_exists 1 (_items s) f e0 Hin) as [[i e] Hc];
    [unfold toward; cbn; lia|].
  destruct (close_item_spec _ _ _ _ _ Hc) as (Hidx & Ht & Hnear).
  unfold toward in Ht, Hnear. cbn in Ht, Hnear.
  assert (Hef : e <> f).
  { intros ->. apply list_index_getitem in Hidx as [Hr Hg].
    rewrite list_getitem_inside in Hg by lia. injection Hg as Hg.
    assert (Hex : contains (_items s) f = true).
    { unfold contains. apply existsb_exists. exists f.
      split; [|apply Z.eqb_refl]. rewrite <- Hg. apply nth_In.
      unfold len in Hr. lia. }
    congruence. }
  exists i, e. split; [|split; [exact Hidx | split; [lia|]]].
  - unfold nextitem. now apply (getitem_onto_snap 1 s f i e).
  - intros e' He' Hlt'. specialize (Hnear e' He'). lia.
Qed.

Lemma next_after_fuzzy_witness :
  exists i e,
    nextitem (odd_levels None None exception (Some 2))
      = (Return e, with_fuzzyval None
                     (with_idx (Some i) (odd_levels None None exception (Some 2)))) /\
    list_index [1; 3; 5; 7] e = Return i /\
    2 < e /\
    (forall e', In e' [1; 3; 5; 7] -> 2 < e' -> e <= e').
Proof.
  apply (next_after_fuzzy (odd_levels None None exception (Some 2)) 2 7);
    [reflexivity | reflexivity | cbn; tauto | lia].
Defined.

(** X12: with a pending fuzzy value that is not in the list and at least
    one item below it, [previtem()] returns, in every mode and whatever
    the cursor was: it gives the largest item below the fuzzy value,
    puts the cursor on the first position holding it and clears the
    fuzzy value. *)
Theorem prev_before_fuzzy (s : NeighborList) (f e0 : Z) :
  fuzzyval s = Some f -> contains (_items s) f = false ->
  In e0 (_items s) -> e0 < f ->
  exists i e,
    previtem s = (Return e, with_fuzzyval None (with_idx (Some i) s)) /\
    list_index (_items s) e = Return i /\
    e < f /\
    (forall e', In e' (_items s) -> e' < f -> e' <= e).
Proof.
  intros Hf Hnotin Hin Hlt.
  assert (Hne : _items s <> []) by (intros E; rewrite E in Hin; exact Hin).
  destruct (close_item_exists (-1) (_items s) f e0 Hin) as [[i e] Hc];
    [unfold toward; cbn; lia|].
  destruct (close_item_spec _ _ _ _ _ Hc) as (Hidx & Ht & Hnear).
  unfold toward in Ht, Hnear. cbn in Ht, Hnear.
  assert (Hef : e <> f).
  { intros ->. apply list_index_getitem in Hidx as [Hr Hg].
    rewrite list_getitem_inside in Hg by lia. injection Hg as Hg.
    assert (Hex : contains (_items s) f = true).
    { unfold contains. apply existsb_exists. exists f.
      split; [|apply Z.eqb_refl]. rewrite <- Hg. apply nth_In.
      unfold len in Hr. lia. }
    congruence. }
  exists i, e. split; [|split; [exact Hidx | split; [lia|]]].
  - unfold previtem. now apply (getitem_onto_snap (-1) s f i e).
  - intros e' He' Hlt'. specialize (Hnear e' He'). lia.
Qed.

Lemma prev_before_fuzzy_witness :
  exists i e,
    previtem (odd_levels None None exception (Some 6))
      = (Return e, with_fuzzyval None
                     (with_idx (Some i) (odd_levels None None exception (Some 6)))) /\
    list_index [1; 3; 5; 7] e = Return i /\
    e < 6 /\
    (forall e', In e' [1; 3; 5; 7] -> e' < 6 -> e' <= e).
Proof.
  apply (prev_before_fuzzy (odd_levels None None exception (Some 6)) 6 1);
    [reflexivity | reflexivity | cbn; tauto | lia].
Defined.

(** X13: a pending fuzzy value that is in the list acts as a cursor on
    its first position: [getitem], for any offset and mode, does exactly
    what it does on the object with the cursor there and no fuzzy
    value. *)
Theorem fuzzy_member_is_cursor (s : NeighborList) (f i offset : Z) :
  fuzzyval s = Some f -> list_index (_items s) f = Return i ->
  getitem offset s
  = getitem offset (with_fuzzyval None (with_idx (Some i) s)).
Proof.
  intros Hf Hidx.
  destruct (list_index_getitem _ _ _ Hidx) as [Hr Hg].
  rewrite list_getitem_inside in Hg by lia. injection Hg as Hg.
  assert (Hin : In f (_items s)).
  { rewrite <- Hg. apply nth_In. unfold len in Hr. lia. }
  assert (Hne : _items s <> []) by (intros E; rewrite E in Hin; exact Hin).
  assert (Hmem : contains (_items s) f = true).
  { unfold contains. apply existsb_exists. exists f.
    split; [exact Hin | apply Z.eqb_refl]. }
  destruct (close_item_exists offset (_items s) f f Hin) as [[j e] Hc].
  { unfold toward. destruct (offset <? 0); lia. }
  destruct (close_item_spec _ _ _ _ _ Hc) as (Hj & Ht & Hnear).
  assert (He : e = f).
  { assert (Hself : toward offset f f)
      by (unfold toward; destruct (offset <? 0); lia).
    specialize (Hnear f Hin Hself). lia. }
  subst e. assert (j = i) by congruence. subst j.
  rewrite (getitem_snapped offset s f i f) by assumption.
  rewrite Hmem. cbn [negb]. unfold remaining. cbn [andb].
  symmetry. now apply getitem_plain.
Qed.

Lemma fuzzy_member_is_cursor_witness :
  getitem (-1) (odd_levels None (Some 3) block (Some 5))
    = getitem (-1) (odd_levels None (Some 2) block None).
Proof.
  apply (fuzzy_member_is_cursor (odd_levels None (Some 3) block (Some 5)) 5 2 (-1));
    reflexivity.
Defined.

(** X14: while a fuzzy value is pending, the result of [getitem] does
    not depend on the cursor: whatever [idx] holds, and in particular
    after [firstitem()], [lastitem()], [reset()] or [curitem()], the
    next [getitem] returns or raises the same; when some item passes the
    snap's comparison the object it leaves is the same too. *)
Theorem pending_fuzzy_overrides_cursor (s : NeighborList) (f offset : Z)
    (v : option Z) (c : call) :
  fuzzyval s = Some f ->
  fst (getitem offset (with_idx v s)) = fst (getitem offset s) /\
  (candidates offset (_items s) f <> [] ->
   getitem offset (with_idx v s) = getitem offset s) /\
  (c = call_firstitem \/ c = call_lastitem \/ c = call_reset \/
   c = call_curitem ->
   fst (getitem offset (exec c s)) = fst (getitem offset s)).
Proof.
  intros Hf.
  assert (Hany : forall w,
            fst (getitem offset (with_idx w s)) = fst (getitem offset s) /\
            (candidates offset (_items s) f <> [] ->
             getitem offset (with_idx w s) = getitem offset s)).
  { intros w. destruct (_items s) as [|x r] eqn:Hit.
    - rewrite !getitem_empty by (cbn; assumption). split; [reflexivity|].
      intros H. now contradiction H.
    - rewrite <- Hit in *.
      assert (Hne : _items s <> []) by congruence.
      rewrite (getitem_fuzzy offset (with_idx w s) f),
              (snap_in_unfold offset (with_idx w s) f) by (cbn; assumption).
      rewrite (getitem_fuzzy offset s f), (snap_in_unfold offset s f)
        by assumption.
      cbn [_items with_idx]. unfold close_item.
      destruct (candidates offset (_items s) f) as [|c0 cr].
      + split; [reflexivity|]. intros H. now contradiction H.
      + unfold py_min. split; reflexivity. }
  split; [apply Hany|]. split; [apply Hany|].
  assert (Hsame : forall s', s' = s -> fst (getitem offset s') = fst (getitem offset s))
    by (intros s' ->; reflexivity).
  intros [-> | [-> | [-> | ->]]]; cbn [exec].
  - destruct (_items s) as [|x r] eqn:Hit.
    + rewrite firstitem_empty by assumption. reflexivity.
    + rewrite firstitem_nonempty by congruence. apply Hany.
  - destruct (_items s) as [|x r] eqn:Hit.
    + rewrite lastitem_empty by assumption. reflexivity.
    + rewrite lastitem_nonempty by congruence. apply Hany.
  - destruct (_default s) as [d|] eqn:Hd.
    + destruct (list_index (_items s) d) as [i|e] eqn:Hi.
      * rewrite (reset_found s d i) by assumption. apply Hany.
      * rewrite (reset_missing s d e) by assumption. reflexivity.
    + rewrite reset_unset by assumption. reflexivity.
  - now rewrite curitem_state.
Qed.

Lemma pending_fuzzy_overrides_cursor_witness :
  fst (getitem 1 (with_idx (Some 3) (odd_levels (Some 7) (Some 0) wrap (Some 2))))
    = fst (getitem 1 (odd_levels (Some 7) (Some 0) wrap (Some 2))) /\
  (candidates 1 [1; 3; 5; 7] 2 <> [] ->
   getitem 1 (with_idx (Some 3) (odd_levels (Some 7) (Some 0) wrap (Some 2)))
     = getitem 1 (odd_levels (Some 7) (Some 0) wrap (Some 2))) /\
  (call_reset = call_firstitem \/ call_reset = call_lastitem \/
   call_reset = call_reset \/ call_reset = call_curitem ->
   fst (getitem 1 (exec call_reset (odd_levels (Some 7) (Some 0) wrap (Some 2))))
     = fst (getitem 1 (odd_levels (Some 7) (Some 0) wrap (Some 2)))).
Proof.
  apply (pending_fuzzy_overrides_cursor
           (odd_levels (Some 7) (Some 0) wrap (Some 2)) 2 1 (Some 3) call_reset).
  reflexivity.
Defined.



(** ** What a call of [getitem] can end with *)

Lemma plain_step_post offset s i :
  fuzzyval s = None -> idx s = Some i -> 0 <= i < len (_items s) ->
  match getitem offset s with
  | (Return x, s') => curitem s' = (Return x, s') /\ fuzzyval s' = None
  | (Raise e, s') =>
      s' = s /\ _mode s = exception /\
      class_of e = IndexError /\ error_kind e = Some IndexOutOfRange
  end.
Proof.
  intros Hf Hi Hr. rewrite (getitem_valid offset s i) by assumption.
  assert (Hmod : 0 <= (i + offset) mod len (_items s) < len (_items s))
    by (apply Z.mod_pos_bound; lia).
  destruct (Z.leb_spec 0 (i + offset)) as [Hlo|Hlo];
    destruct (Z.ltb_spec (i + offset) (len (_items s))) as [Hhi|Hhi];
    cbn [andb];
    try (destruct (_mode s) eqn:Hm; cbv zeta);
    try (split; [now apply curitem_valid | exact Hf]);
    try (split; [apply (curitem_valid (with_idx _ s)); [reflexivity | cbn; lia]
                | exact Hf]);
    unfold border_error; repeat split; now destruct (0 <=? i + offset).
Qed.

(** X20: from an object whose cursor is absent or valid, when [getitem]
    returns, the item it returns is the one under the cursor it leaves
    ([curitem()] gives it again) and no fuzzy value is pending any
    more. *)
Theorem getitem_returns_current (s s' : NeighborList) (offset x : Z) :
  cursor_valid s -> getitem offset s = (Return x, s') ->
  curitem s' = (Return x, s') /\ fuzzyval s' = None.
Proof.
  intros Hv Hget. destruct (_items s) as [|y r] eqn:Hit.
  { rewrite getitem_empty in Hget by assumption. discriminate. }
  assert (Hne : _items s <> []) by congruence.
  destruct (fuzzyval s) as [f|] eqn:Hf.
  - rewrite (getitem_fuzzy offset s f) in Hget by assumption.
    destruct (snap_in_cases offset s) as [[e He] | (b & i & Hi & Hs)].
    + rewrite He in Hget. discriminate.
    + rewrite Hs in Hget.
      rewrite <- (getitem_plain _ (with_fuzzyval None (with_idx (Some i) s)))
        in Hget by (cbn; auto).
      pose proof (plain_step_post (remaining b offset)
                    (with_fuzzyval None (with_idx (Some i) s)) i
                    eq_refl eq_refl Hi) as Hpost.
      rewrite Hget in Hpost. exact Hpost.
  - unfold cursor_valid in Hv. destruct (idx s) as [i|] eqn:Hi.
    + pose proof (plain_step_post offset s i Hf Hi Hv) as Hpost.
      rewrite Hget in Hpost. exact Hpost.
    + rewrite getitem_plain, get_new_item_None in Hget by assumption.
      discriminate.
Qed.

Lemma getitem_returns_current_witness :
  curitem (odd_levels None (Some 1) wrap None)
    = (Return 3, odd_levels None (Some 1) wrap None) /\
  fuzzyval (odd_levels None (Some 1) wrap None) = None.
Proof.
  apply (getitem_returns_current (odd_levels None (Some 3) wrap (Some 6))
           (odd_levels None (Some 1) wrap None) (-2) 3);
    [unfold cursor_valid, len; cbn; lia | reflexivity].
Defined.



(** * The enumeration factory *)

(** ** Dictionaries *)

Section DictFacts.
Context {K V : Type} (eqb : K -> K -> bool).
Hypothesis eqb_eq : forall a b, eqb a b = true <-> a = b.











End DictFacts.

(** ** Numbering and reverse lookup *)
















